(** * robot.writer.filewriters: the column-alignment and rendering pipeline

    A shallow embedding of [src/robot/writer/filewriters.py].  Every visitor
    class of the file is a module below; a visitor that mutates the tree
    returns the new tree, a visitor that carries instance fields threads
    them as an explicit state record, and a Python [IndexError] is the
    [Raise] branch of [result]. *)

From Stdlib Require Import ZArith Ascii String Lia.
From stdpp Require Import base tactics option list strings.

Local Open Scope Z_scope.

(** ** Failing computations *)

Inductive exception := IndexError.

Inductive result (A : Type) : Type :=
| Ok (a : A)
| Raise (e : exception).
Arguments Ok {A} a.
Arguments Raise {A} e.

Definition bind {A B} (m : result A) (k : A -> result B) : result B :=
  match m with
  | Ok a => k a
  | Raise e => Raise e
  end.

Notation "'let*' x ':=' m 'in' k" := (bind m (fun x => k))
  (at level 10, x pattern, m at level 200, k at level 200).

(** A [for] loop over a list whose body mutates the elements and the
    visitor's fields. *)
Fixpoint for_each {S A} (f : S -> A -> result (A * S)) (s : S) (l : list A)
  : result (list A * S) :=
  match l with
  | [] => Ok ([], s)
  | a :: l' =>
      let* (a', s1) := f s a in
      let* (l'', s2) := for_each f s1 l' in
      Ok (a' :: l'', s2)
  end.

(** The same loop for a visitor that only reads the elements. *)
Fixpoint for_each_ {S A} (f : S -> A -> result S) (s : S) (l : list A)
  : result S :=
  match l with
  | [] => Ok s
  | a :: l' => let* s1 := f s a in for_each_ f s1 l'
  end.

(** ** Python strings

    A [str] is the list of its characters.  The embedding is exact on 7-bit
    ASCII text; a character above 127 is taken as neither cased nor
    white space. *)

Definition str := list ascii.

Definition lit (s : string) : str := list_ascii_of_string s.

Module Py.

(** [len(s)] *)
Definition len (s : str) : Z := Z.of_nat (length s).

(** [n * ' '] : the empty string when [n] is not positive. *)
Definition spaces (n : Z) : str := replicate (Z.to_nat n) " "%char.

(** [n * s] *)
Definition repeat_str (n : Z) (s : str) : str :=
  concat (replicate (Z.to_nat n) s).

(** [c.isspace()] *)
Definition isspace (c : ascii) : bool :=
  let n := nat_of_ascii c in
  ((9 <=? n) && (n <=? 13) || (28 <=? n) && (n <=? 32))%nat.

Definition isupper (c : ascii) : bool :=
  let n := nat_of_ascii c in ((65 <=? n) && (n <=? 90))%nat.

Definition islower (c : ascii) : bool :=
  let n := nat_of_ascii c in ((97 <=? n) && (n <=? 122))%nat.

Definition to_lower (c : ascii) : ascii :=
  if isupper c then ascii_of_nat (nat_of_ascii c + 32) else c.

Definition to_upper (c : ascii) : ascii :=
  if islower c then ascii_of_nat (nat_of_ascii c - 32) else c.

Fixpoint lstrip (s : str) : str :=
  match s with
  | c :: s' => if isspace c then lstrip s' else s
  | [] => []
  end.

(** [s.rstrip()] *)
Definition rstrip (s : str) : str := reverse (lstrip (reverse s)).

(** [s.strip()] *)
Definition strip (s : str) : str := rstrip (lstrip s).

(** [s.lower()] *)
Definition lower (s : str) : str := map to_lower s.

(** [s.title()]: a cased character is upper-cased when the character
    before it is not cased, and lower-cased otherwise. *)
Fixpoint title_from (previous_is_cased : bool) (s : str) : str :=
  match s with
  | [] => []
  | c :: s' =>
      if isupper c || islower c
      then (if previous_is_cased then to_lower c else to_upper c)
             :: title_from true s'
      else c :: title_from false s'
  end.

Definition title (s : str) : str := title_from false s.

(** [s.startswith(p)] *)
Fixpoint startswith (s p : str) : bool :=
  match p, s with
  | [], _ => true
  | a :: p', b :: s' => bool_decide (a = b) && startswith s' p'
  | _ :: _, [] => false
  end.

(** [s[1:-1]] *)
Definition slice_1_m1 (s : str) : str := drop 1 (take (length s - 1) s).

(** [s[:-4]] *)
Definition slice_to_m4 (s : str) : str := take (length s - 4) s.

(** [s.ljust(width)] *)
Definition ljust (s : str) (width : Z) : str := s ++ spaces (width - len s).

(** [sep.join(values)] *)
Fixpoint join (sep : str) (values : list str) : str :=
  match values with
  | [] => []
  | [v] => v
  | v :: values' => v ++ sep ++ join sep values'
  end.

End Py.

(** ** The syntax tree

    Modelled from the spec: the classes [Token] of [robot.parsing.lexer] and
    [Statement], [ForLoop], [TestOrKeyword], [Section] and [File] of
    [robot.parsing.model], which the writer imports and which are not part
    of the source file.  The node fields are visited in the order the spec
    lists them. *)

Module Token.

(** The token types the writer names, the keyword-table header of the
    spec's data model, and [OTHER] for every remaining type. *)
Inductive kind :=
| SETTING_HEADER | VARIABLE_HEADER | TESTCASE_HEADER | KEYWORD_HEADER
| NAME | KEYWORD | SEPARATOR | EOL | OLD_FOR_INDENT
| OTHER (name : string).

#[global] Instance kind_eq_dec : EqDecision kind.
Proof. solve_decision. Defined.

Record t := mk { type : kind; value : str }.

Definition set_value (token : t) (v : str) : t := mk (type token) v.

End Token.

Module Statement.

(** A statement is its tokens grouped into logical lines; [type] is the
    statement's kind. *)
Record t := mk { type : Token.kind; lines : list (list Token.t) }.

(** [statement.tokens] *)
Definition tokens (statement : t) : list Token.t := concat (lines statement).

(** [statement.tokens[0]] *)
Definition first_token (statement : t) : result Token.t :=
  match tokens statement with
  | token :: _ => Ok token
  | [] => Raise IndexError
  end.

Fixpoint set_first_value (ls : list (list Token.t)) (v : str)
  : list (list Token.t) :=
  match ls with
  | [] => []
  | [] :: ls' => [] :: set_first_value ls' v
  | (token :: line) :: ls' => (Token.set_value token v :: line) :: ls'
  end.

(** [statement.tokens[0].value = v] *)
Definition assign_first_value (statement : t) (v : str) : result t :=
  let* _ := first_token statement in
  Ok (mk (type statement) (set_first_value (lines statement) v)).

(** Cut a token list back into lines of the given lengths. *)
Fixpoint regroup {A} (lengths : list nat) (l : list A) : list (list A) :=
  match lengths with
  | [] => []
  | n :: lengths' => take n l :: regroup lengths' (drop n l)
  end.

(** [statement.tokens = f(statement.tokens)] for an [f] that keeps the
    tokens apart: every token stays on its line. *)
Definition assign_tokens (statement : t)
    (mutate : list Token.t -> list Token.t) (keep : Token.t -> bool) : t :=
  mk (type statement)
     (map (List.filter keep)
          (regroup (map length (lines statement))
                   (mutate (tokens statement)))).

End Statement.

Module ForLoop.
Record t := mk
  { header : Statement.t; body : list Statement.t; end_ : Statement.t }.
End ForLoop.

Module BodyItem.
Inductive t :=
| Stmt (statement : Statement.t)
| Loop (forloop : ForLoop.t).
End BodyItem.

Module TestOrKeyword.
Record t := mk { name : Statement.t; body : list BodyItem.t }.
End TestOrKeyword.

Module SectionItem.
Inductive t :=
| Stmt (statement : Statement.t)
| Block (node : TestOrKeyword.t).
End SectionItem.

Module Sect.
(** [len(section.header)] and [for t in section.header] go through the
    header statement's tokens. *)
Record t := mk
  { type : Token.kind; header : Statement.t; body : list SectionItem.t }.
End Sect.

Definition File := list Sect.t.

(** ** [ast.NodeVisitor.generic_visit]

    The default traversal, given the visitor's methods for the child
    nodes: a visitor below overrides a method by passing its own. *)

Module NodeVisitor.
Section generic_visit.
Context {S : Type}.
Variable visit_Statement : S -> Statement.t -> result (Statement.t * S).

Definition generic_visit_ForLoop (s : S) (node : ForLoop.t)
  : result (ForLoop.t * S) :=
  let* (h, s) := visit_Statement s (ForLoop.header node) in
  let* (b, s) := for_each visit_Statement s (ForLoop.body node) in
  let* (e, s) := visit_Statement s (ForLoop.end_ node) in
  Ok (ForLoop.mk h b e, s).

Variable visit_ForLoop : S -> ForLoop.t -> result (ForLoop.t * S).

Definition visit_BodyItem (s : S) (item : BodyItem.t)
  : result (BodyItem.t * S) :=
  match item with
  | BodyItem.Stmt st =>
      let* (st, s) := visit_Statement s st in Ok (BodyItem.Stmt st, s)
  | BodyItem.Loop f =>
      let* (f, s) := visit_ForLoop s f in Ok (BodyItem.Loop f, s)
  end.

Definition generic_visit_TestOrKeyword (s : S) (node : TestOrKeyword.t)
  : result (TestOrKeyword.t * S) :=
  let* (n, s) := visit_Statement s (TestOrKeyword.name node) in
  let* (b, s) := for_each visit_BodyItem s (TestOrKeyword.body node) in
  Ok (TestOrKeyword.mk n b, s).

Variable visit_TestOrKeyword
  : S -> TestOrKeyword.t -> result (TestOrKeyword.t * S).

Definition visit_SectionItem (s : S) (item : SectionItem.t)
  : result (SectionItem.t * S) :=
  match item with
  | SectionItem.Stmt st =>
      let* (st, s) := visit_Statement s st in Ok (SectionItem.Stmt st, s)
  | SectionItem.Block n =>
      let* (n, s) := visit_TestOrKeyword s n in Ok (SectionItem.Block n, s)
  end.

Definition generic_visit_Section (s : S) (section : Sect.t)
  : result (Sect.t * S) :=
  let* (h, s) := visit_Statement s (Sect.header section) in
  let* (b, s) := for_each visit_SectionItem s (Sect.body section) in
  Ok (Sect.mk (Sect.type section) h b, s).

Variable visit_Section : S -> Sect.t -> result (Sect.t * S).

Definition generic_visit_File (s : S) (model : File)
  : result (File * S) :=
  for_each visit_Section s model.
End generic_visit.

(** The traversal of a visitor that defines [visit_Statement] only. *)
Section statements_only.
Context {S : Type}.
Variable visit_Statement : S -> Statement.t -> result (Statement.t * S).

Definition visit_ForLoop := generic_visit_ForLoop visit_Statement.
Definition visit_TestOrKeyword :=
  generic_visit_TestOrKeyword visit_Statement visit_ForLoop.
Definition visit_Section :=
  generic_visit_Section visit_Statement visit_TestOrKeyword.
Definition visit_File := generic_visit_File visit_Section.
End statements_only.
End NodeVisitor.

(** ** [class SeparatorRemover] *)

Module SeparatorRemover.

Definition append_value (extra : str) (token : Token.t) : Token.t :=
  Token.set_value token (Token.value token ++ extra).

(** The loop of [_add_whitespace_to_header_values].  [tokens] is the
    statement's token list, mutated in place; [prev] refers to one of its
    tokens and is kept as that token's index; [rest] are the tokens still
    to iterate over, the first of them at [index]. *)
Fixpoint header_loop (rest : list Token.t) (index : nat) (prev : option nat)
    (tokens : list Token.t) : list Token.t :=
  match rest with
  | [] => tokens
  | token :: rest' =>
      match bool_decide (Token.type token = Token.SEPARATOR), prev with
      | true, Some p =>
          header_loop rest' (S index) prev
            (alter (append_value (Py.slice_to_m4 (Token.value token))) p tokens)
      | _, _ =>
          if bool_decide (Token.type token = Token.TESTCASE_HEADER)
          then header_loop rest' (S index) (Some index) tokens
          else header_loop rest' (S index) None tokens
      end
  end.

Definition _add_whitespace_to_header_values (tokens : list Token.t)
  : list Token.t :=
  header_loop tokens 0 None tokens.

(** [t.type not in (Token.EOL, Token.SEPARATOR, Token.OLD_FOR_INDENT)] *)
Definition kept (token : Token.t) : bool :=
  negb (bool_decide (Token.type token = Token.EOL)
        || bool_decide (Token.type token = Token.SEPARATOR)
        || bool_decide (Token.type token = Token.OLD_FOR_INDENT)).

Definition visit_Statement (s : unit) (statement : Statement.t)
  : result (Statement.t * unit) :=
  let mutate :=
    if bool_decide (Statement.type statement = Token.TESTCASE_HEADER)
    then _add_whitespace_to_header_values
    else fun tokens => tokens in
  Ok (Statement.assign_tokens statement mutate kept, s).

Definition visit_File := NodeVisitor.visit_File visit_Statement.

End SeparatorRemover.

(** ** [class SettingCleaner] *)

Module SettingCleaner.
Section SettingCleaner.

(** [Token.SETTING_TOKENS], a constant of the absent lexer. *)
Variable SETTING_TOKENS : list Token.kind.

Definition cleaned (name : str) : str :=
  if Py.startswith (Py.strip name) (lit "[")
  then lit "[" ++ Py.title (Py.lower (Py.strip (Py.slice_1_m1 name))) ++ lit "]"
  else Py.title (Py.lower name).

Definition visit_Statement (s : unit) (statement : Statement.t)
  : result (Statement.t * unit) :=
  if bool_decide (Statement.type statement ∈ SETTING_TOKENS) then
    let* token := Statement.first_token statement in
    let name := Token.value token in
    let* statement := Statement.assign_first_value statement (cleaned name) in
    Ok (statement, s)
  else Ok (statement, s).

Definition visit_File := NodeVisitor.visit_File visit_Statement.

End SettingCleaner.
End SettingCleaner.

(** ** [class ForLoopCleaner] *)

Module ForLoopCleaner.

Definition visit_Statement (s : unit) (statement : Statement.t)
  : result (Statement.t * unit) :=
  Ok (statement, s).

Definition visit_ForLoop (s : unit) (forloop : ForLoop.t)
  : result (ForLoop.t * unit) :=
  let* header := Statement.assign_first_value (ForLoop.header forloop) (lit "FOR") in
  let* end_ := Statement.assign_first_value (ForLoop.end_ forloop) (lit "END") in
  Ok (ForLoop.mk header (ForLoop.body forloop) end_, s).

Definition visit_TestOrKeyword :=
  NodeVisitor.generic_visit_TestOrKeyword visit_Statement visit_ForLoop.
Definition visit_Section :=
  NodeVisitor.generic_visit_Section visit_Statement visit_TestOrKeyword.
Definition visit_File := NodeVisitor.generic_visit_File visit_Section.

End ForLoopCleaner.

(** ** [class ColumnWidthCounter] *)

Module ColumnWidthCounter.

Record state := mk
  { widths : list Z; _name_width : Z; _first_line_seen : bool }.

Definition __init__ (widths : list Z) : state := mk widths 0 false.

(** [for index, token in enumerate(line)] *)
Fixpoint count_tokens (line : list Token.t) (index : nat) (widths : list Z)
  : list Z :=
  match line with
  | [] => widths
  | token :: line' =>
      let col := S index in
      let n := Py.len (Token.value token) in
      let widths :=
        if bool_decide (length widths <= col)%nat then widths ++ [n]
        else match widths !! col with
             | Some w => if bool_decide (w < n) then <[col := n]> widths
                         else widths
             | None => widths
             end in
      count_tokens line' (S index) widths
  end.

(** [for line in statement.lines] *)
Definition count_lines (lines : list (list Token.t)) (s : state) : state :=
  foldl (fun s line => mk (count_tokens line 0 (widths s)) (_name_width s) true)
        s lines.

Definition visit_Statement (s : state) (statement : Statement.t)
  : result (Statement.t * state) :=
  if bool_decide (Statement.type statement = Token.NAME) then
    let* token := Statement.first_token statement in
    Ok (statement, mk (widths s) (Py.len (Token.value token)) false)
  else if bool_decide (Statement.type statement = Token.TESTCASE_HEADER) then
    Ok (statement, s)
  else Ok (statement, count_lines (Statement.lines statement) s).

(** [counter.visit(section)] *)
Definition visit_Section := NodeVisitor.visit_Section visit_Statement.

End ColumnWidthCounter.

(** ** [class ColumnAligner] *)

Module ColumnAligner.

Record state := mk
  { widths : list Z;
    _test_name_len : Z;
    indent : Z;
    _first_statment_seen : bool }.

Definition __init__ (widths : list Z) : state := mk widths 0 0 false.

Definition set_indent (s : state) (n : Z) : state :=
  mk (widths s) (_test_name_len s) n (_first_statment_seen s).

Definition set_seen (s : state) (b : bool) : state :=
  mk (widths s) (_test_name_len s) (indent s) b.

Definition set_name_len (s : state) (n : Z) : state :=
  mk (widths s) n (indent s) (_first_statment_seen s).

(** The test of the [if] inside the token loop. *)
Definition corrects (s : state) (line_pos : Z) : bool :=
  bool_decide (line_pos = 0) && negb (_first_statment_seen s)
  && bool_decide (_test_name_len s < 18).

(** [for token, width in zip(line, widths)]: the tokens beyond the widths
    are not visited.  The loop returns the line together with its variables
    [line_pos] and [exp_pos] and the visitor's fields. *)
Fixpoint align_tokens (line : list Token.t) (widths : list Z)
    (line_pos exp_pos : Z) (s : state) : list Token.t * Z * Z * state :=
  match line, widths with
  | token :: line', width :: widths' =>
      let exp_pos := exp_pos + width in
      let fire := corrects s line_pos in
      let exp_pos := if fire then exp_pos - _test_name_len s else exp_pos in
      let s := if fire then set_seen s true else s in
      let token :=
        Token.set_value token
          (Py.spaces (exp_pos - line_pos) ++ Token.value token) in
      let line_pos := line_pos + Py.len (Token.value token) in
      let '(rest, line_pos, exp_pos, s) :=
        align_tokens line' widths' line_pos exp_pos s in
      (token :: rest, line_pos, exp_pos, s)
  | _, _ => (line, line_pos, exp_pos, s)
  end.

(** The copy [self.widths[:]] of one line, after the merge of its first two
    entries for a keyword call inside a loop. *)
Definition line_widths (s : state) (line : list Token.t) : result (list Z) :=
  if bool_decide (0 < indent s) then
    match line with
    | [] => Raise IndexError
    | token :: _ =>
        if bool_decide (Token.type token = Token.KEYWORD) then
          match widths s with
          | [] => Raise IndexError
          | first_width :: [] => Raise IndexError
          | first_width :: w0 :: widths' => Ok (w0 + first_width :: widths')
          end
        else Ok (widths s)
    end
  else Ok (widths s).

Definition visit_line (s : state) (line : list Token.t)
  : result (list Token.t * state) :=
  let* widths := line_widths s line in
  let '(line, _, _, s) := align_tokens line widths 0 0 s in
  Ok (line, s).

Definition visit_Statement (s : state) (statement : Statement.t)
  : result (Statement.t * state) :=
  if bool_decide (Statement.type statement = Token.TESTCASE_HEADER) then
    Ok (statement, s)
  else if bool_decide (Statement.type statement = Token.NAME) then
    let* token := Statement.first_token statement in
    Ok (statement, set_name_len s (Py.len (Token.value token)))
  else
    let* (lines, s) := for_each visit_line s (Statement.lines statement) in
    Ok (Statement.mk (Statement.type statement) lines, s).

Definition visit_ForLoop (s : state) (statement : ForLoop.t)
  : result (ForLoop.t * state) :=
  let s := set_indent s (indent s + 1) in
  let* (statement, s) :=
    NodeVisitor.generic_visit_ForLoop visit_Statement s statement in
  Ok (statement, set_indent s (indent s - 1)).

Definition visit_TestOrKeyword (s : state) (node : TestOrKeyword.t)
  : result (TestOrKeyword.t * state) :=
  let s := set_seen s false in
  NodeVisitor.generic_visit_TestOrKeyword visit_Statement visit_ForLoop s node.

(** [ColumnAligner(widths).visit(section)] *)
Definition visit_Section :=
  NodeVisitor.generic_visit_Section visit_Statement visit_TestOrKeyword.

End ColumnAligner.

(** ** [class Aligner] *)

Module Aligner.

Definition _setting_and_variable_name_width : Z := 14.

Definition justify_line (s : unit) (line : list Token.t)
  : result (list Token.t * unit) :=
  match line with
  | [] => Raise IndexError
  | token :: line' =>
      Ok (Token.set_value token
            (Py.ljust (Token.value token) _setting_and_variable_name_width)
            :: line', s)
  end.

Definition visit_Statement (s : unit) (statement : Statement.t)
  : result (Statement.t * unit) :=
  let* (lines, s) := for_each justify_line s (Statement.lines statement) in
  Ok (Statement.mk (Statement.type statement) lines, s).

(** [[len(t.value) for t in section.header]] *)
Definition header_widths (section : Sect.t) : list Z :=
  map (fun t => Py.len (Token.value t)) (Statement.tokens (Sect.header section)).

(** [counter.widths] after [counter.visit(section)] *)
Definition counted_widths (section : Sect.t) : result (list Z) :=
  let counter := ColumnWidthCounter.__init__ (header_widths section) in
  let* (_, counter) := ColumnWidthCounter.visit_Section counter section in
  Ok (ColumnWidthCounter.widths counter).

(** [counter.widths[:-1]], the argument of [ColumnAligner] *)
Definition aligner_widths (section : Sect.t) : result (list Z) :=
  let* widths := counted_widths section in
  Ok (take (length widths - 1) widths).

Definition visit_Section (s : unit) (section : Sect.t)
  : result (Sect.t * unit) :=
  if bool_decide (Sect.type section = Token.SETTING_HEADER)
     || bool_decide (Sect.type section = Token.VARIABLE_HEADER) then
    NodeVisitor.visit_Section visit_Statement s section
  else if bool_decide (Sect.type section = Token.TESTCASE_HEADER) then
    if bool_decide (1 < Z.of_nat (length (Statement.tokens (Sect.header section))))
    then
      let* widths := aligner_widths section in
      let* (section, _) :=
        ColumnAligner.visit_Section (ColumnAligner.__init__ widths) section in
      Ok (section, s)
    else Ok (section, s)
  else Ok (section, s).

Definition visit_File := NodeVisitor.generic_visit_File visit_Section.

End Aligner.

(** ** [class Writer] *)

Module Writer.

(** The fields of the writing context the writer reads; [output] is the
    text the sink already holds. *)
Record configuration := mk_configuration
  { pipe_separated : bool; txt_separating_spaces : Z; output0 : str }.

(** The values [_test_case_section_headers] takes: [None], [False] or a
    list of lengths. *)
Inductive section_headers :=
| HNone
| HFalse
| HList (lengths : list Z).

(** Python truth value *)
Definition truthy (h : section_headers) : bool :=
  match h with
  | HList (_ :: _) => true
  | _ => false
  end.

Record state := mk
  { output : str;
    indent : Z;
    _section_seen : bool;
    _test_or_kw_seen : bool;
    _test_case_section_headers : section_headers }.

Definition newline : str := ["010"%char].

Section Writer.
Variable config : configuration.

(** [self.pipes], [self.separator], [self.indent_marker] *)
Definition pipes : bool := pipe_separated config.

Definition separator : str :=
  if negb pipes then Py.spaces (txt_separating_spaces config) else lit " | ".

Definition indent_marker : str :=
  if negb pipes then separator else lit "   | ".

Definition __init__ : state := mk (output0 config) 0 false false HNone.

(** [self.output.write(text)] *)
Definition write (s : state) (text : str) : state :=
  mk (output s ++ text) (indent s) (_section_seen s) (_test_or_kw_seen s)
     (_test_case_section_headers s).

Definition set_indent (s : state) (n : Z) : state :=
  mk (output s) n (_section_seen s) (_test_or_kw_seen s)
     (_test_case_section_headers s).

Definition set_test_or_kw_seen (s : state) (b : bool) : state :=
  mk (output s) (indent s) (_section_seen s) b (_test_case_section_headers s).

Definition set_headers (s : state) (h : section_headers) : state :=
  mk (output s) (indent s) (_section_seen s) (_test_or_kw_seen s) h.

(** The text of one line of a statement *)
Definition row (indent : str) (line : list Token.t) : str :=
  let values := map Token.value line in
  let row := indent ++ Py.join separator values in
  if pipes then lit "| " ++ row ++ lit " |" else Py.rstrip row.

Definition _write_statement (s : state) (statement : Statement.t)
    (write_newline : bool) : state :=
  let indent := Py.repeat_str (indent s) indent_marker in
  foldl (fun s line =>
           let s := write s (row indent line) in
           if write_newline then write s newline else s)
        s (Statement.lines statement).

Definition visit_Statement (s : state) (statement : Statement.t)
  : result state :=
  Ok (_write_statement s statement true).

Definition visit_ForLoop (s : state) (node : ForLoop.t) : result state :=
  let s := _write_statement s (ForLoop.header node) true in
  let s := set_indent s (indent s + 1) in
  let* s := for_each_ visit_Statement s (ForLoop.body node) in
  let s := set_indent s (indent s - 1) in
  Ok (_write_statement s (ForLoop.end_ node) true).

Definition visit_BodyItem (s : state) (item : BodyItem.t) : result state :=
  match item with
  | BodyItem.Stmt statement => visit_Statement s statement
  | BodyItem.Loop forloop => visit_ForLoop s forloop
  end.

(** The argument [write_newline] of the call that writes the name line:
    [not self._test_case_section_headers or
     len(node.name.tokens[0].value) >= 18] *)
Definition name_newline (s : state) (node : TestOrKeyword.t) : result bool :=
  if negb (truthy (_test_case_section_headers s)) then Ok true
  else
    let* token := Statement.first_token (TestOrKeyword.name node) in
    Ok (bool_decide (18 <= Py.len (Token.value token))).

Definition visit_TestOrKeyword (s : state) (node : TestOrKeyword.t)
  : result state :=
  let s := if _test_or_kw_seen s then write s newline else s in
  let* write_newline := name_newline s node in
  let s := _write_statement s (TestOrKeyword.name node) write_newline in
  let s := set_indent s (indent s + 1) in
  let* s := for_each_ visit_BodyItem s (TestOrKeyword.body node) in
  let s := set_indent s (indent s - 1) in
  Ok (set_test_or_kw_seen s true).

Definition visit_SectionItem (s : state) (item : SectionItem.t)
  : result state :=
  match item with
  | SectionItem.Stmt statement => visit_Statement s statement
  | SectionItem.Block node => visit_TestOrKeyword s node
  end.

(** The state in which [visit_Section] starts the traversal of the section:
    the blank line and [_test_case_section_headers]. *)
Definition enter_Section (s : state) (section : Sect.t) : state :=
  let s := if _section_seen s then write s newline else s in
  if bool_decide (Sect.type section = Token.TESTCASE_HEADER) then
    if bool_decide (1 < Z.of_nat (length (Statement.tokens (Sect.header section))))
    then set_headers s (HList (Aligner.header_widths section))
    else s
  else s.

(** The assignments that end [visit_Section] *)
Definition leave_Section (s : state) : state :=
  mk (output s) (indent s) true false HFalse.

Definition visit_Section (s : state) (section : Sect.t) : result state :=
  let s := enter_Section s section in
  let* s := visit_Statement s (Sect.header section) in
  let* s := for_each_ visit_SectionItem s (Sect.body section) in
  Ok (leave_Section s).

Definition visit_File (s : state) (model : File) : result state :=
  for_each_ visit_Section s model.

End Writer.
End Writer.

(** ** [_DataFileWriter.write] *)

Module _DataFileWriter.

Definition write (SETTING_TOKENS : list Token.kind)
    (config : Writer.configuration) (model : File) : result str :=
  let* (model, _) := SeparatorRemover.visit_File tt model in
  let* (model, _) := SettingCleaner.visit_File SETTING_TOKENS tt model in
  let* (model, _) := ForLoopCleaner.visit_File tt model in
  let* (model, _) := Aligner.visit_File tt model in
  let* s := Writer.visit_File config (Writer.__init__ config) model in
  Ok (Writer.output s).

End _DataFileWriter.

(** ** [class SpaceSeparatedTxtWriter], [class PipeSeparatedTxtWriter]

    The row writers of the two dialect classes; [_output] is the text the
    sink holds. *)

Module SpaceSeparatedTxtWriter.

(** [self._separator], set by [__init__] *)
Definition _separator (config : Writer.configuration) : str :=
  Py.spaces (Writer.txt_separating_spaces config).

Definition _write_row (config : Writer.configuration) (_output : str)
    (row : list Token.t) : str :=
  let line :=
    Py.rstrip (Py.join (_separator config) (map Token.value row))
    ++ Writer.newline in
  _output ++ line.

(** [_write_rows], inherited from [_DataFileWriter] *)
Definition _write_rows (config : Writer.configuration) (_output : str)
    (rows : list (list Token.t)) : str :=
  foldl (_write_row config) _output rows.

End SpaceSeparatedTxtWriter.

Module PipeSeparatedTxtWriter.

Definition _separator : str := lit " | ".

Definition _write_row (_output : str) (row : list Token.t) : str :=
  let row := Py.join _separator (map Token.value row) in
  let row :=
    match row with
    | _ :: _ => lit "| " ++ row ++ lit " |"
    | [] => row
    end in
  _output ++ (row ++ Writer.newline).

(** [_write_rows], inherited from [_DataFileWriter] *)
Definition _write_rows (_output : str) (rows : list (list Token.t)) : str :=
  foldl _write_row _output rows.

End PipeSeparatedTxtWriter.

(** ** [FileWriter]

    The class of the object the factory returns, and the dispatch of
    [_write_row] on it. *)

Inductive writer_class := SpaceSeparated | PipeSeparated.

Definition FileWriter (context : Writer.configuration) : writer_class :=
  if Writer.pipe_separated context then PipeSeparated else SpaceSeparated.

Definition _write_row (self : writer_class) (config : Writer.configuration)
    (_output : str) (row : list Token.t) : str :=
  match self with
  | SpaceSeparated => SpaceSeparatedTxtWriter._write_row config _output row
  | PipeSeparated => PipeSeparatedTxtWriter._write_row _output row
  end.

(** ** Vocabulary of the properties *)

(** The length of the text a list of tokens puts on its line *)
Definition text_length (tokens : list Token.t) : Z :=
  foldr (fun token n => Py.len (Token.value token) + n) 0 tokens.

(** The sum of the widths a loop has consumed *)
Definition total (widths : list Z) : Z := foldr Z.add 0 widths.

(** The text [_write_statement] appends for one line at an indentation *)
Definition rendered_line (config : Writer.configuration) (indent : Z)
    (write_newline : bool) (line : list Token.t) : str :=
  Writer.row config (Py.repeat_str indent (Writer.indent_marker config)) line
  ++ (if write_newline then Writer.newline else []).

(** The column width calculator followed by the column aligner, as
    [Aligner.visit_Section] runs them on a section. *)
Definition column_passes (section : Sect.t) : result (Sect.t * unit) :=
  let* widths := Aligner.aligner_widths section in
  let* (section, _) :=
    ColumnAligner.visit_Section (ColumnAligner.__init__ widths) section in
  Ok (section, tt).

(** The number of header columns of a section *)
Definition header_columns (section : Sect.t) : Z :=
  Z.of_nat (length (Statement.tokens (Sect.header section))).

(** A table with the header [*** ... ***  Action  Argument] (separators
    removed) and the block [Short] with the call [Log  hello]. *)
Definition example_table (type : Token.kind) (title : string) : Sect.t :=
  Sect.mk type
    (Statement.mk type
       [[Token.mk type (lit title); Token.mk type (lit "Action");
         Token.mk type (lit "Argument")]])
    [SectionItem.Block
       (TestOrKeyword.mk
          (Statement.mk Token.NAME [[Token.mk Token.NAME (lit "Short")]])
          [BodyItem.Stmt
             (Statement.mk Token.KEYWORD
                [[Token.mk Token.KEYWORD (lit "Log");
                  Token.mk (Token.OTHER "ARGUMENT") (lit "hello")]])])].

(** The fields of a visitor after a visit *)
Definition final_state {S A} (r : result (A * S)) : result S :=
  let* (_, s) := r in Ok s.

(** The statements of a node in the order [generic_visit] reaches them *)
Definition statements_of_loop (forloop : ForLoop.t) : list Statement.t :=
  ForLoop.header forloop :: ForLoop.body forloop ++ [ForLoop.end_ forloop].

Definition statements_of_body_item (item : BodyItem.t) : list Statement.t :=
  match item with
  | BodyItem.Stmt statement => [statement]
  | BodyItem.Loop forloop => statements_of_loop forloop
  end.

Definition statements_of_block (node : TestOrKeyword.t) : list Statement.t :=
  TestOrKeyword.name node
  :: concat (map statements_of_body_item (TestOrKeyword.body node)).

Definition statements_of_section_item (item : SectionItem.t)
  : list Statement.t :=
  match item with
  | SectionItem.Stmt statement => [statement]
  | SectionItem.Block node => statements_of_block node
  end.

Definition statements_of_section (section : Sect.t) : list Statement.t :=
  Sect.header section
  :: concat (map statements_of_section_item (Sect.body section)).

(** A data row: neither a block name nor a table header *)
Definition is_data (statement : Statement.t) : bool :=
  negb (bool_decide (Statement.type statement = Token.NAME))
  && negb (bool_decide (Statement.type statement = Token.TESTCASE_HEADER)).

Definition data_lines (section : Sect.t) : list (list Token.t) :=
  concat (map Statement.lines
            (List.filter is_data (statements_of_section section))).

(** The columns of a table: the header's columns, or the name column and
    the tokens of the longest data line when that is more. *)
Definition columns (section : Sect.t) : nat :=
  Nat.max (length (Statement.tokens (Sect.header section)))
          (S (max_list_with length (data_lines section))).

(** The widths after counting some lines into them *)
Definition count_all (widths : list Z) (lines : list (list Token.t)) : list Z :=
  foldl (fun widths line => ColumnWidthCounter.count_tokens line 0 widths)
        widths lines.


(** The writer holds no column layout: [_test_case_section_headers] is
    [None], [False] or empty. *)
Definition single_column (s : Writer.state) : Prop :=
  Writer.truthy (Writer._test_case_section_headers s) = false.

(** The setting name as the spec words it: the trimmed text, title-cased,
    inside its brackets when it has them. *)
Definition claimed_cleaned (name : str) : str :=
  let trimmed := Py.strip name in
  if Py.startswith trimmed (lit "[")
  then lit "[" ++ Py.title (Py.strip (Py.slice_1_m1 trimmed)) ++ lit "]"
  else Py.title trimmed.

(** The header row after [_add_whitespace_to_header_values], in words *)

Definition is_separator (token : Token.t) : bool :=
  bool_decide (Token.type token = Token.SEPARATOR).

Definition is_header_title (token : Token.t) : bool :=
  bool_decide (Token.type token = Token.TESTCASE_HEADER).

(** A separator's text without its last four characters *)
Definition kept_spacing (separator : Token.t) : str :=
  Py.slice_to_m4 (Token.value separator).

(** As the spec words it: a header title takes the spacing of the
    separator right after it, and no other separator counts. *)
Fixpoint claimed_header_values (tokens : list Token.t) : list Token.t :=
  match tokens with
  | [] => []
  | token :: rest =>
      match rest with
      | next :: _ =>
          if is_header_title token && is_separator next
          then SeparatorRemover.append_value (kept_spacing next) token
          else token
      | [] => token
      end :: claimed_header_values rest
  end.

(** The separators a token list starts with *)
Fixpoint separator_run (tokens : list Token.t) : list Token.t :=
  match tokens with
  | token :: rest =>
      if is_separator token then token :: separator_run rest else []
  | [] => []
  end.

(** As the code has it: a header title takes the spacing of every
    separator of the run that follows it. *)
Fixpoint run_header_values (tokens : list Token.t) : list Token.t :=
  match tokens with
  | [] => []
  | token :: rest =>
      (if is_header_title token
       then SeparatorRemover.append_value
              (concat (map kept_spacing (separator_run rest))) token
       else token) :: run_header_values rest
  end.

(** A line fits its widths: no token is longer than the width paired with
    the token after it, and the first width is at least [previous]. *)
Fixpoint fits (previous : Z) (line : list Token.t) (widths : list Z) : Prop :=
  match line, widths with
  | token :: line', width :: widths' =>
      previous <= width /\ fits (Py.len (Token.value token)) line' widths'
  | _, _ => True
  end.

(** A token with spaces put before its text *)
Definition padded_of (token token' : Token.t) : Prop :=
  Token.type token' = Token.type token
  /\ exists n : nat,
       Token.value token' = replicate n " "%char ++ Token.value token.

(** A statement whose tokens have spaces put before their texts *)
Definition padded_statement (statement statement' : Statement.t) : Prop :=
  Statement.type statement' = Statement.type statement
  /\ Forall2 (Forall2 padded_of)
       (Statement.lines statement) (Statement.lines statement').

(** A writer that has not written anything yet *)
Definition fresh : Writer.state := Writer.mk [] 0 false false Writer.HNone.

(** The text of a section written on its own *)
Definition section_text (config : Writer.configuration) (section : Sect.t)
  : result str :=
  let* s := Writer.visit_Section config fresh section in
  Ok (Writer.output s).

(** Two writers inside a section that differ by the text [before] in the
    sink of the second *)
Definition ahead (before : str) (s1 s2 : Writer.state) : Prop :=
  Writer.output s2 = before ++ Writer.output s1
  /\ Writer.indent s2 = Writer.indent s1
  /\ Writer._test_or_kw_seen s2 = Writer._test_or_kw_seen s1
  /\ Writer.truthy (Writer._test_case_section_headers s2)
     = Writer.truthy (Writer._test_case_section_headers s1).

Definition ahead_result (before : str) (r1 r2 : result Writer.state) : Prop :=
  match r1, r2 with
  | Ok s1, Ok s2 => ahead before s1 s2
  | Raise e1, Raise e2 => e1 = e2
  | _, _ => False
  end.

(** A row the pipe dialect writes as a bare newline: no token, or one
    token with an empty text *)
Definition blank_row (row : list Token.t) : bool :=
  match row with
  | [] => true
  | [token] => bool_decide (Token.value token = [])
  | _ => false
  end.


(** Modelled from the spec: the number of spaces a token gets before its
    text according to the overrun clause as it is worded: none when the
    token is longer than the width of its column, the clamped difference of
    the two positions otherwise. *)
Definition claimed_padding (width line_pos exp_pos : Z) (token : Token.t) : Z :=
  if bool_decide (width < Py.len (Token.value token)) then 0
  else Z.max (exp_pos - line_pos) 0.

(** The statement a body item opens with, and how much deeper than the
    block it is visited: a loop opens with its header, one level deeper. *)
Definition first_statement (item : BodyItem.t) : Statement.t :=
  match item with
  | BodyItem.Stmt statement => statement
  | BodyItem.Loop forloop => ForLoop.header forloop
  end.

Definition depth_of (item : BodyItem.t) : Z :=
  match item with
  | BodyItem.Stmt _ => 0
  | BodyItem.Loop _ => 1
  end.

(** What the column aligner still does with a body item once its first
    statement has become [statement']: nothing for a statement; for a
    loop, the body, the end and the way back out. *)
Definition rest_of_item (item : BodyItem.t) (statement' : Statement.t)
    (s : ColumnAligner.state) : result (BodyItem.t * ColumnAligner.state) :=
  match item with
  | BodyItem.Stmt _ => Ok (BodyItem.Stmt statement', s)
  | BodyItem.Loop forloop =>
      let* (b, s) :=
        for_each ColumnAligner.visit_Statement s (ForLoop.body forloop) in
      let* (e, s) := ColumnAligner.visit_Statement s (ForLoop.end_ forloop) in
      Ok (BodyItem.Loop (ForLoop.mk statement' b e),
          ColumnAligner.set_indent s (ColumnAligner.indent s - 1))
  end.

(** A body item with no line: a statement, not a name row, without lines *)
Definition no_line (item : BodyItem.t) : Prop :=
  exists statement,
    item = BodyItem.Stmt statement
    /\ Statement.type statement <> Token.NAME
    /\ Statement.lines statement = [].

(** * Properties *)

(** ** The failure monad and the loops *)

Lemma bind_ok {A B} (m : result A) (k : A -> result B) (b : B) :
  bind m k = Ok b -> exists a, m = Ok a /\ k a = Ok b.
Proof. destruct m as [a|e]; simpl; [eauto | discriminate]. Qed.

Lemma for_each_app {S A} (f : S -> A -> result (A * S)) s (l1 l2 : list A) :
  for_each f s (l1 ++ l2) =
  let* (l1', s1) := for_each f s l1 in
  let* (l2', s2) := for_each f s1 l2 in
  Ok (l1' ++ l2', s2).
Proof.
  revert s. induction l1 as [|a l1 IH]; intros s; simpl.
  - destruct (for_each f s l2) as [[l2' s2]|e]; reflexivity.
  - destruct (f s a) as [[a' s1]|e]; simpl; [|reflexivity].
    rewrite IH. destruct (for_each f s1 l1) as [[l1' s1']|e]; simpl; [|reflexivity].
    destruct (for_each f s1' l2) as [[l2' s2]|e]; reflexivity.
Qed.

Lemma for_each__app {S A} (f : S -> A -> result S) s (l1 l2 : list A) :
  for_each_ f s (l1 ++ l2) = let* s1 := for_each_ f s l1 in for_each_ f s1 l2.
Proof.
  revert s. induction l1 as [|a l1 IH]; intros s; simpl; [reflexivity|].
  destruct (f s a) as [s1|e]; simpl; [apply IH | reflexivity].
Qed.

(** A property of the visitor's fields that every element keeps is kept by
    the loop. *)
Lemma for_each_invariant {S A} (P : S -> Prop)
    (f : S -> A -> result (A * S)) (l : list A) :
  (forall s a a' s', P s -> f s a = Ok (a', s') -> P s') ->
  forall s l' s', P s -> for_each f s l = Ok (l', s') -> P s'.
Proof.
  intros Hf. induction l as [|a l IH]; intros s l' s' HP H; simpl in H.
  - congruence.
  - apply bind_ok in H as ([a' s1] & Ha & H).
    apply bind_ok in H as ([l'' s2] & Hl & H).
    injection H as <- <-. eauto.
Qed.

Lemma for_each__invariant {S A} (P : S -> Prop)
    (f : S -> A -> result S) (l : list A) :
  (forall s a s', P s -> f s a = Ok s' -> P s') ->
  forall s s', P s -> for_each_ f s l = Ok s' -> P s'.
Proof.
  intros Hf. induction l as [|a l IH]; intros s s' HP H; simpl in H.
  - congruence.
  - apply bind_ok in H as (s1 & Ha & H). eauto.
Qed.

(** ** Python strings *)

Example title_tags : Py.title (Py.lower (lit "tAGS")) = lit "Tags".
Proof. reflexivity. Qed.

Example title_words :
  Py.title (Py.lower (lit "test setup")) = lit "Test Setup".
Proof. reflexivity. Qed.

Example slices :
  Py.slice_1_m1 (lit "[tags]") = lit "tags" /\ Py.slice_1_m1 (lit "x") = lit ""
  /\ Py.slice_to_m4 (lit "      ") = lit "  " /\ Py.slice_to_m4 (lit "  ") = lit "".
Proof. repeat split. Qed.

Example strip_both : Py.strip (lit "  a b  ") = lit "a b".
Proof. reflexivity. Qed.

Lemma spaces_clamped n :
  Py.spaces n = replicate (Z.to_nat (Z.max n 0)) " "%char.
Proof. unfold Py.spaces. f_equal. lia. Qed.

Lemma spaces_nonpositive n : n <= 0 -> Py.spaces n = [].
Proof. intros H. unfold Py.spaces. replace (Z.to_nat n) with 0%nat by lia. reflexivity. Qed.

Lemma len_app (a b : str) : Py.len (a ++ b) = Py.len a + Py.len b.
Proof. unfold Py.len. rewrite length_app. lia. Qed.

Lemma len_nonneg (a : str) : 0 <= Py.len a.
Proof. unfold Py.len. lia. Qed.

Lemma len_spaces n : Py.len (Py.spaces n) = Z.max n 0.
Proof. unfold Py.len, Py.spaces. rewrite length_replicate. lia. Qed.

Lemma text_length_app (l1 l2 : list Token.t) :
  text_length (l1 ++ l2) = text_length l1 + text_length l2.
Proof. induction l1 as [|t l1 IH]; simpl; [reflexivity | rewrite IH; lia]. Qed.

Lemma total_app (l1 l2 : list Z) : total (l1 ++ l2) = total l1 + total l2.
Proof. induction l1 as [|t l1 IH]; simpl; [reflexivity | rewrite IH; lia]. Qed.

(** ** The column aligner's token loop *)

Section align_tokens.
Import ColumnAligner.

Lemma corrects_seen s line_pos :
  _first_statment_seen s = true -> corrects s line_pos = false.
Proof.
  intros H. unfold corrects. rewrite H.
  destruct (bool_decide (line_pos = 0)); reflexivity.
Qed.

Lemma align_tokens_nil_widths line line_pos exp_pos s :
  align_tokens line [] line_pos exp_pos s = (line, line_pos, exp_pos, s).
Proof. destruct line; reflexivity. Qed.

Lemma align_tokens_cons token line width widths line_pos exp_pos s :
  align_tokens (token :: line) (width :: widths) line_pos exp_pos s =
  let fire := corrects s line_pos in
  let exp_pos := exp_pos + width - (if fire then _test_name_len s else 0) in
  let s := if fire then set_seen s true else s in
  let token :=
    Token.set_value token (Py.spaces (exp_pos - line_pos) ++ Token.value token) in
  let '(rest, line_pos, exp_pos, s) :=
    align_tokens line widths (line_pos + Py.len (Token.value token)) exp_pos s in
  (token :: rest, line_pos, exp_pos, s).
Proof.
  simpl. destruct (corrects s line_pos); simpl;
    rewrite ?Z.sub_0_r; reflexivity.
Qed.

Lemma align_tokens_app pre post wpre wpost line_pos exp_pos s :
  length pre = length wpre ->
  align_tokens (pre ++ post) (wpre ++ wpost) line_pos exp_pos s =
  let '(pre', line_pos1, exp_pos1, s1) :=
    align_tokens pre wpre line_pos exp_pos s in
  let '(post', line_pos2, exp_pos2, s2) :=
    align_tokens post wpost line_pos1 exp_pos1 s1 in
  (pre' ++ post', line_pos2, exp_pos2, s2).
Proof.
  revert wpre line_pos exp_pos s.
  induction pre as [|token pre IH]; intros [|width wpre] line_pos exp_pos s Hlen;
    try discriminate.
  - simpl. destruct (align_tokens post wpost line_pos exp_pos s) as [[[? ?] ?] ?].
    reflexivity.
  - injection Hlen as Hlen.
    rewrite <- !app_comm_cons, !align_tokens_cons. cbv zeta.
    rewrite (IH _ _ _ _ Hlen).
    destruct (align_tokens pre wpre _ _ _) as [[[pre' lp1] ep1] s1].
    destruct (align_tokens post wpost lp1 ep1 s1) as [[[post' lp2] ep2] s2].
    reflexivity.
Qed.

(** The loop changes no field other than the flag, and never clears it. *)
Lemma align_tokens_state line widths line_pos exp_pos s :
  let '(_, _, _, s') := align_tokens line widths line_pos exp_pos s in
  s' = s \/ (_first_statment_seen s = false /\ s' = set_seen s true).
Proof.
  revert widths line_pos exp_pos s.
  induction line as [|token line IH]; intros [|width widths] line_pos exp_pos s;
    try (simpl; auto; fail).
  rewrite align_tokens_cons. cbv zeta.
  match goal with |- context [align_tokens line widths ?lp ?ep ?s1] =>
    specialize (IH widths lp ep s1);
    destruct (align_tokens line widths lp ep s1) as [[[rest lp'] ep'] s'] end.
  destruct (corrects s line_pos) eqn:Hfire.
  - right. split.
    + unfold corrects in Hfire. destruct (_first_statment_seen s); [|reflexivity].
      rewrite andb_false_r in Hfire. discriminate.
    + destruct IH as [->|[Hs _]]; [reflexivity | discriminate].
  - exact IH.
Qed.

(** [line_pos] is the length of the text put on the line so far and
    [exp_pos] the sum of the widths consumed, less the name length when the
    correction fired in between. *)
Lemma align_tokens_positions line widths line_pos exp_pos s :
  length line = length widths ->
  let '(line', line_pos', exp_pos', s') :=
    align_tokens line widths line_pos exp_pos s in
  line_pos' = line_pos + text_length line'
  /\ exp_pos' = exp_pos + total widths
                - (if negb (_first_statment_seen s) && _first_statment_seen s'
                   then _test_name_len s else 0).
Proof.
  revert widths line_pos exp_pos s.
  induction line as [|token line IH]; intros [|width widths] line_pos exp_pos s Hlen;
    try discriminate.
  - simpl. destruct (_first_statment_seen s); simpl; lia.
  - injection Hlen as Hlen. rewrite align_tokens_cons. cbv zeta.
    match goal with |- context [align_tokens line widths ?lp ?ep ?s1] =>
      specialize (IH widths lp ep s1 Hlen);
      pose proof (align_tokens_state line widths lp ep s1) as Hst;
      destruct (align_tokens line widths lp ep s1) as [[[rest lp'] ep'] s'] end.
    destruct IH as [-> ->]. simpl text_length. simpl total.
    destruct (corrects s line_pos) eqn:Hfire.
    + assert (_first_statment_seen s = false) as Hs.
      { unfold corrects in Hfire. destruct (_first_statment_seen s); [|reflexivity].
        rewrite andb_false_r in Hfire. discriminate. }
      rewrite Hs. destruct Hst as [->|[Hst _]]; [|discriminate].
      simpl. split; lia.
    + destruct Hst as [->|[Hs ->]]; simpl.
      * destruct (_first_statment_seen s); simpl; split; lia.
      * rewrite Hs. simpl. split; lia.
Qed.

End align_tokens.

Section padding.
Import ColumnAligner.

Lemma set_value_same token : Token.set_value token (Token.value token) = token.
Proof. destruct token; reflexivity. Qed.

(** Column overrun: a token at least as long as the width that follows it
    leaves no padding for the next token. *)
Lemma overrun_absorbed t1 t2 line w1 w2 widths line_pos exp_pos s :
  0 <= line_pos -> w2 <= Py.len (Token.value t1) ->
  exists t1' rest line_pos' exp_pos' s',
    align_tokens (t1 :: t2 :: line) (w1 :: w2 :: widths) line_pos exp_pos s
    = (t1' :: t2 :: rest, line_pos', exp_pos', s').
Proof.
  intros Hpos Hlen. rewrite align_tokens_cons. cbv zeta.
  set (e1 := exp_pos + w1 - _).
  set (s1 := if corrects s line_pos then _ else _).
  set (t1' := Token.set_value t1 _).
  rewrite align_tokens_cons. cbv zeta.
  assert (Py.len (Token.value t1') = Z.max (e1 - line_pos) 0 + Py.len (Token.value t1))
    as Hl1 by (unfold t1'; simpl; rewrite len_app, len_spaces; reflexivity).
  pose proof (len_nonneg (Token.value t1)) as Hnn.
  assert (corrects s1 (line_pos + Py.len (Token.value t1')) = false) as Hfire.
  { unfold s1. destruct (corrects s line_pos) eqn:Hc.
    - apply corrects_seen. reflexivity.
    - unfold corrects in *.
      destruct (bool_decide (line_pos + Py.len (Token.value t1') = 0)) eqn:Hz;
        [|reflexivity].
      apply bool_decide_eq_true in Hz.
      assert (line_pos = 0) as -> by lia.
      rewrite bool_decide_eq_true_2 in Hc by reflexivity. exact Hc. }
  rewrite Hfire.
  rewrite spaces_nonpositive by lia. simpl app. rewrite set_value_same.
  match goal with |- context [align_tokens line widths ?lp ?ep ?s2] =>
    destruct (align_tokens line widths lp ep s2) as [[[rest lp'] ep'] s'] end.
  do 5 eexists. reflexivity.
Qed.

Lemma text_length_nonneg (tokens : list Token.t) : 0 <= text_length tokens.
Proof.
  induction tokens as [|token tokens IH]; simpl; [lia|].
  pose proof (len_nonneg (Token.value token)). lia.
Qed.

(** C6 as the spec states it fails: [LongKeyword], eleven characters, is
    longer than the width 4 it is paired with and than the width 6 of its
    own column, and is still prepended 4 spaces; it is the token after it
    that gets none. *)
Lemma overrunning_token_still_padded :
  let token := Token.mk Token.KEYWORD (lit "LongKeyword") in
  let arg := Token.mk (Token.OTHER "ARGUMENT") (lit "arg") in
  let s := ColumnAligner.mk [4; 6] 0 0 true in
  4 < Py.len (Token.value token)
  /\ 6 < Py.len (Token.value token)
  /\ claimed_padding 4 0 4 token = 0
  /\ claimed_padding 6 0 4 token = 0
  /\ visit_Statement s (Statement.mk Token.KEYWORD [[token; arg]])
     = Ok (Statement.mk Token.KEYWORD
             [[Token.mk Token.KEYWORD (Py.spaces 4 ++ lit "LongKeyword"); arg]],
           s)
  /\ Py.spaces 4 ++ Token.value token
     <> Py.spaces (claimed_padding 4 0 4 token) ++ Token.value token.
Proof. repeat split. vm_compute. discriminate. Qed.

(** C6, amended: every token the column aligner pairs with a width is
    prepended [max(expPos - linePos, 0)] spaces, where [linePos] is the
    length of the text already on the line and [expPos] the expected
    position after this token's width (and the name correction); the
    padding is never negative and the original text is a suffix of the
    padded text, so no token is truncated.  A long token is padded like any
    other; its overrun is absorbed by [linePos]: a token reached when
    [linePos] is at or past [expPos] gets no padding, and a token at least
    as long as the width paired with the token after it leaves that next
    token without padding. *)
Theorem padding_is_clamped_difference
    pre token post wpre width wpost line_pos exp_pos s :
  length pre = length wpre ->
  let '(pre', linePos, exp_pos1, s1) :=
    align_tokens pre wpre line_pos exp_pos s in
  let expPos :=
    exp_pos1 + width - (if corrects s1 linePos then _test_name_len s1 else 0) in
  let padded :=
    replicate (Z.to_nat (Z.max (expPos - linePos) 0)) " "%char
      ++ Token.value token in
  linePos = line_pos + text_length pre'
  /\ (exists post' line_pos' exp_pos' s',
        align_tokens (pre ++ token :: post) (wpre ++ width :: wpost)
          line_pos exp_pos s
        = (pre' ++ Token.mk (Token.type token) padded :: post',
           line_pos', exp_pos', s'))
  /\ Token.value token `suffix_of` padded
  /\ (expPos <= linePos -> padded = Token.value token)
  /\ (forall next rest wnext wrest,
        post = next :: rest -> wpost = wnext :: wrest ->
        0 <= line_pos ->
        wnext <= Py.len (Token.value token) ->
        exists rest' line_pos' exp_pos' s',
          align_tokens (pre ++ token :: next :: rest)
            (wpre ++ width :: wnext :: wrest) line_pos exp_pos s
          = (pre' ++ Token.mk (Token.type token) padded :: next :: rest',
             line_pos', exp_pos', s')).
Proof.
  intros Hlen.
  pose proof (align_tokens_app pre (token :: post) wpre (width :: wpost)
                line_pos exp_pos s Hlen) as Happ.
  pose proof (align_tokens_positions pre wpre line_pos exp_pos s Hlen) as Hpos.
  destruct (align_tokens pre wpre line_pos exp_pos s)
    as [[[pre' lp1] ep1] s1] eqn:Hpre.
  cbv zeta. destruct Hpos as [Hlp _]. split; [exact Hlp|].
  assert (forall post0 wpost0, exists post' line_pos' exp_pos' s',
            align_tokens (pre ++ token :: post0) (wpre ++ width :: wpost0)
              line_pos exp_pos s
            = (pre' ++ Token.mk (Token.type token)
                         (replicate
                            (Z.to_nat
                               (Z.max
                                  (ep1 + width
                                   - (if corrects s1 lp1
                                      then _test_name_len s1 else 0) - lp1) 0))
                            " "%char ++ Token.value token) :: post',
               line_pos', exp_pos', s')) as Hstep.
  { intros post0 wpost0.
    rewrite (align_tokens_app pre (token :: post0) wpre (width :: wpost0)
               line_pos exp_pos s Hlen), Hpre, align_tokens_cons.
    cbv zeta.
    match goal with |- context [align_tokens post0 wpost0 ?lp ?ep ?s2] =>
      destruct (align_tokens post0 wpost0 lp ep s2) as [[[post' lp'] ep'] s'] end.
    exists post', lp', ep', s'. rewrite spaces_clamped. reflexivity. }
  split; [apply Hstep|]. split; [|split].
  - apply suffix_app_r. reflexivity.
  - intros Hover. replace (Z.to_nat _) with 0%nat by lia. reflexivity.
  - intros next rest wnext wrest _ _ Hnonneg Hlong.
    destruct (Hstep (next :: rest) (wnext :: wrest))
      as (post' & lp' & ep' & s' & Heq).
    rewrite Heq.
    rewrite (align_tokens_app pre (token :: next :: rest) wpre
               (width :: wnext :: wrest) line_pos exp_pos s Hlen), Hpre in Heq.
    pose proof (text_length_nonneg pre') as Hnn.
    destruct (overrun_absorbed token next rest width wnext wrest lp1 ep1 s1
                ltac:(lia) Hlong) as (t1' & rest' & lp2 & ep2 & s2 & Hover).
    rewrite Hover in Heq. injection Heq as Heq _ _ _.
    apply app_inv_head in Heq. injection Heq as _ <-.
    exists rest', lp', ep', s'. reflexivity.
Qed.

Lemma padding_is_clamped_difference_witness :
  let a := Token.mk Token.KEYWORD (lit "Log") in
  let b := Token.mk (Token.OTHER "ARGUMENT") (lit "hello") in
  let long := Token.mk Token.KEYWORD (lit "LongKeyword") in
  let s := ColumnAligner.mk [4; 6] 20 0 true in
  length [a] = length [4]
  /\ (exists post' line_pos' exp_pos' s',
        align_tokens ([a] ++ [b]) ([4] ++ [6]) 0 0 s
        = ([Token.mk Token.KEYWORD (lit "    Log")]
             ++ Token.mk (Token.OTHER "ARGUMENT") (lit "   hello") :: post',
           line_pos', exp_pos', s'))
  /\ 6 <= Py.len (Token.value long)
  /\ (exists rest' line_pos' exp_pos' s',
        align_tokens ([] ++ [long; b]) ([] ++ [4; 6]) 0 0 s
        = ([] ++ Token.mk Token.KEYWORD (lit "    LongKeyword") :: b :: rest',
           line_pos', exp_pos', s')).
Proof.
  intros a b long s. split; [reflexivity|]. split; [|split].
  - exact (proj1 (proj2
             (padding_is_clamped_difference [a] b [] [4] 6 [] 0 0 s eq_refl))).
  - discriminate.
  - refine (proj2 (proj2 (proj2 (proj2
              (padding_is_clamped_difference [] long [b] [] 4 [6] 0 0 s
                 eq_refl))))
              b [] 6 [] eq_refl eq_refl _ _);
      discriminate.
Defined.

End padding.

(** ** Tokens beyond the widths *)

Section unpaired.
Import ColumnAligner.

Lemma align_tokens_length line widths line_pos exp_pos s :
  let '(line', _, _, _) := align_tokens line widths line_pos exp_pos s in
  length line' = length line.
Proof.
  revert widths line_pos exp_pos s.
  induction line as [|token line IH]; intros [|width widths] line_pos exp_pos s;
    try reflexivity.
  rewrite align_tokens_cons. cbv zeta.
  match goal with |- context [align_tokens line widths ?lp ?ep ?s1] =>
    specialize (IH widths lp ep s1);
    destruct (align_tokens line widths lp ep s1) as [[[rest lp'] ep'] s'] end.
  simpl. congruence.
Qed.

Lemma align_tokens_beyond line widths line_pos exp_pos s (i : nat) :
  (length widths <= i)%nat ->
  let '(line', _, _, _) := align_tokens line widths line_pos exp_pos s in
  line' !! i = line !! i.
Proof.
  revert widths line_pos exp_pos s i.
  induction line as [|token line IH]; intros [|width widths] line_pos exp_pos s i Hi;
    try reflexivity.
  rewrite align_tokens_cons. cbv zeta.
  destruct i as [|i]; [simpl in Hi; lia|].
  match goal with |- context [align_tokens line widths ?lp ?ep ?s1] =>
    specialize (IH widths lp ep s1 i ltac:(simpl in Hi; lia));
    destruct (align_tokens line widths lp ep s1) as [[[rest lp'] ep'] s'] end.
  exact IH.
Qed.

(** C10: in a logical line, a token whose index is at or beyond the length
    of the line's (possibly merged) width list comes out of the column
    aligner unchanged. *)
Theorem unpaired_tokens_unchanged s line widths :
  line_widths s line = Ok widths ->
  exists line' s',
    visit_line s line = Ok (line', s')
    /\ length line' = length line
    /\ forall i : nat, (length widths <= i)%nat -> line' !! i = line !! i.
Proof.
  intros Hw. unfold visit_line. rewrite Hw. simpl.
  pose proof (align_tokens_length line widths 0 0 s) as Hlen.
  pose proof (fun i => align_tokens_beyond line widths 0 0 s i) as Hbeyond.
  destruct (align_tokens line widths 0 0 s) as [[[line' lp] ep] s'].
  exists line', s'. auto.
Qed.

Lemma unpaired_tokens_unchanged_witness :
  let call := Token.mk Token.KEYWORD (lit "Log") in
  let arg1 := Token.mk (Token.OTHER "ARGUMENT") (lit "hello") in
  let arg2 := Token.mk (Token.OTHER "ARGUMENT") (lit "world") in
  let s := ColumnAligner.mk [20; 6] 5 1 true in
  line_widths s [call; arg1; arg2] = Ok [26]
  /\ exists line' s',
       visit_line s [call; arg1; arg2] = Ok (line', s')
       /\ length line' = 3%nat
       /\ forall i : nat, (1 <= i)%nat -> line' !! i = [call; arg1; arg2] !! i.
Proof.
  intros call arg1 arg2 s. split; [reflexivity|].
  exact (unpaired_tokens_unchanged s [call; arg1; arg2] [26] eq_refl).
Defined.

End unpaired.

(** ** The name correction of the column aligner *)

Section name_correction.
Import ColumnAligner.

(** Once the flag is set the token loop subtracts nothing: [exp_pos] ends
    as the plain sum of the widths consumed, and no field changes. *)
Lemma align_tokens_seen line widths line_pos exp_pos s :
  _first_statment_seen s = true ->
  let '(_, _, exp_pos', s') := align_tokens line widths line_pos exp_pos s in
  s' = s /\ exp_pos' = exp_pos + total (take (length line) widths).
Proof.
  intros Hseen. revert widths line_pos exp_pos.
  induction line as [|token line IH]; intros [|width widths] line_pos exp_pos;
    try (simpl; split; [reflexivity | lia]).
  rewrite align_tokens_cons, (corrects_seen _ _ Hseen). cbv beta iota zeta.
  match goal with |- context [align_tokens line widths ?lp ?ep s] =>
    specialize (IH widths lp ep);
    destruct (align_tokens line widths lp ep s) as [[[rest lp'] ep'] s'] end.
  destruct IH as [-> ->]. split; [reflexivity|]. simpl. lia.
Qed.

Lemma visit_line_seen s line line' s' :
  _first_statment_seen s = true ->
  visit_line s line = Ok (line', s') -> _first_statment_seen s' = true.
Proof.
  intros Hseen H. unfold visit_line in H.
  apply bind_ok in H as (widths & _ & H).
  pose proof (align_tokens_seen line widths 0 0 s Hseen) as Hs.
  destruct (align_tokens line widths 0 0 s) as [[[l lp] ep] s1].
  destruct Hs as [-> _]. congruence.
Qed.

Lemma visit_Statement_seen s statement statement' s' :
  _first_statment_seen s = true ->
  visit_Statement s statement = Ok (statement', s') ->
  _first_statment_seen s' = true.
Proof.
  intros Hseen H. unfold visit_Statement in H.
  destruct (bool_decide _); [congruence|].
  destruct (bool_decide _).
  - apply bind_ok in H as (token & _ & H). injection H as _ <-. exact Hseen.
  - apply bind_ok in H as ([lines s1] & Hl & H). injection H as _ <-.
    revert Hl. apply (for_each_invariant (fun s => _first_statment_seen s = true));
      [|exact Hseen].
    intros; eapply visit_line_seen; eassumption.
Qed.

Lemma visit_ForLoop_seen s forloop forloop' s' :
  _first_statment_seen s = true ->
  visit_ForLoop s forloop = Ok (forloop', s') -> _first_statment_seen s' = true.
Proof.
  intros Hseen H. unfold visit_ForLoop, NodeVisitor.generic_visit_ForLoop in H.
  apply bind_ok in H as ([f s1] & H & H'). injection H' as _ <-. simpl.
  apply bind_ok in H as ([h s2] & Hh & H).
  apply bind_ok in H as ([b s3] & Hb & H).
  apply bind_ok in H as ([e s4] & He & H). injection H as _ <-.
  eapply visit_Statement_seen; [|exact He].
  eapply (for_each_invariant (fun s => _first_statment_seen s = true));
    [| |exact Hb].
  - intros; eapply visit_Statement_seen; eassumption.
  - eapply visit_Statement_seen; [|exact Hh]. exact Hseen.
Qed.

Lemma visit_BodyItem_seen s item item' s' :
  _first_statment_seen s = true ->
  NodeVisitor.visit_BodyItem visit_Statement visit_ForLoop s item = Ok (item', s') ->
  _first_statment_seen s' = true.
Proof.
  intros Hseen H. destruct item as [statement|forloop]; simpl in H.
  - apply bind_ok in H as ([st s1] & H & H'). injection H' as _ <-.
    eapply visit_Statement_seen; eassumption.
  - apply bind_ok in H as ([f s1] & H & H'). injection H' as _ <-.
    eapply visit_ForLoop_seen; eassumption.
Qed.

(** The first data line a visitor reaches with the flag clear and a short
    name recorded, at any depth: its first token is padded to the line's
    first width less the name length, and the flag is set for the rest. *)
Lemma first_data_line_corrected s statement token line lines width widths' :
  _first_statment_seen s = false ->
  _test_name_len s < 18 ->
  Statement.type statement <> Token.TESTCASE_HEADER ->
  Statement.type statement <> Token.NAME ->
  Statement.lines statement = (token :: line) :: lines ->
  line_widths s (token :: line) = Ok (width :: widths') ->
  let fired := set_seen s true in
  let token' :=
    Token.set_value token
      (Py.spaces (width - _test_name_len s) ++ Token.value token) in
  visit_Statement s statement =
    (let '(line', _, _, s1) :=
       align_tokens line widths' (Py.len (Token.value token'))
         (width - _test_name_len s) fired in
     let* (lines', s2) := for_each visit_line s1 lines in
     Ok (Statement.mk (Statement.type statement) ((token' :: line') :: lines'),
         s2)).
Proof.
  intros Hseen Hshort Hth Hnm Hlines Hwidths fired token'.
  unfold visit_Statement.
  rewrite (bool_decide_eq_false_2 _ Hth), (bool_decide_eq_false_2 _ Hnm).
  rewrite Hlines. cbn [for_each].
  unfold visit_line at 1. rewrite Hwidths. cbn [bind].
  rewrite align_tokens_cons. unfold corrects. rewrite Hseen.
  rewrite bool_decide_eq_true_2 by reflexivity.
  rewrite (bool_decide_eq_true_2 _ Hshort).
  cbn [andb negb]. cbv zeta. rewrite Z.add_0_l, Z.sub_0_r.
  fold fired. fold token'.
  destruct (align_tokens line widths' _ _ fired) as [[[line' lp] ep] s1].
  cbn [bind].
  destruct (for_each visit_line s1 lines) as [[lines' s2]|e]; reflexivity.
Qed.

Lemma no_line_unchanged s pre :
  Forall no_line pre ->
  for_each (NodeVisitor.visit_BodyItem visit_Statement visit_ForLoop) s pre
  = Ok (pre, s).
Proof.
  induction 1 as [|item pre (statement & -> & Hname & Hlines) Hpre IH];
    [reflexivity|].
  cbn [for_each NodeVisitor.visit_BodyItem]. unfold visit_Statement at 1.
  rewrite (bool_decide_eq_false_2 _ Hname), Hlines.
  destruct (bool_decide (Statement.type statement = Token.TESTCASE_HEADER));
    cbn [for_each bind]; rewrite IH; cbn [bind]; [reflexivity|].
  destruct statement as [type lines]. simpl in Hlines. subst lines. reflexivity.
Qed.

(** C4: in a block whose name is shorter than 18 characters the name
    length is subtracted from [exp_pos] at the first token of the first data
    line, and only there.  The first data line is the first line of the
    item that follows the items without lines, be it a statement or the
    header of a loop, which is visited one level deeper.
    [visit_TestOrKeyword] clears the flag, the name row records the length
    [n], the first token is padded to [width - n], [width] being the first
    of the line's widths, and the rest of the block is aligned from the
    state [fired], whose flag is set; from any state whose flag is set the
    token loop subtracts nothing and changes no field, and every line,
    statement, loop and body item leaves the flag set. *)
Theorem name_correction_fires_once
    s node name_token name_rest pre item items token line lines width widths' :
  Statement.type (TestOrKeyword.name node) = Token.NAME ->
  Statement.tokens (TestOrKeyword.name node) = name_token :: name_rest ->
  Py.len (Token.value name_token) < 18 ->
  TestOrKeyword.body node = pre ++ item :: items ->
  Forall no_line pre ->
  Statement.type (first_statement item) <> Token.TESTCASE_HEADER ->
  Statement.type (first_statement item) <> Token.NAME ->
  Statement.lines (first_statement item) = (token :: line) :: lines ->
  let n := Py.len (Token.value name_token) in
  let entered :=
    set_indent (set_name_len (set_seen s false) n) (indent s + depth_of item) in
  line_widths entered (token :: line) = Ok (width :: widths') ->
  let fired := set_seen entered true in
  let token' :=
    Token.set_value token (Py.spaces (width - n) ++ Token.value token) in
  visit_TestOrKeyword s node =
    (let '(line', _, _, s1) :=
       align_tokens line widths' (Py.len (Token.value token')) (width - n) fired in
     let* (lines', s2) := for_each visit_line s1 lines in
     let* (item', s3) :=
       rest_of_item item
         (Statement.mk (Statement.type (first_statement item))
            ((token' :: line') :: lines')) s2 in
     let* (items', s4) :=
       for_each (NodeVisitor.visit_BodyItem visit_Statement visit_ForLoop)
         s3 items in
     Ok (TestOrKeyword.mk (TestOrKeyword.name node) (pre ++ item' :: items'),
         s4))
  /\ _first_statment_seen fired = true
  /\ (forall sa l ws line_pos exp_pos,
        _first_statment_seen sa = true ->
        snd (align_tokens l ws line_pos exp_pos sa) = sa
        /\ snd (fst (align_tokens l ws line_pos exp_pos sa))
           = exp_pos + total (take (length l) ws))
  /\ (forall sa item item' sb,
        _first_statment_seen sa = true ->
        NodeVisitor.visit_BodyItem visit_Statement visit_ForLoop sa item
        = Ok (item', sb) ->
        _first_statment_seen sb = true).
Proof.
  intros Hname Htokens Hshort Hbody Hpre Hth Hnm Hlines n entered Hwidths
    fired token'.
  split; [|split; [reflexivity|split]].
  - unfold visit_TestOrKeyword, NodeVisitor.generic_visit_TestOrKeyword.
    rewrite Hbody.
    unfold visit_Statement at 1. rewrite Hname.
    rewrite bool_decide_eq_false_2 by discriminate.
    rewrite bool_decide_eq_true_2 by reflexivity.
    unfold Statement.first_token. rewrite Htokens. cbn [bind].
    fold n. rewrite for_each_app, (no_line_unchanged _ pre Hpre).
    cbn [bind for_each].
    destruct item as [statement|forloop];
      cbn [first_statement depth_of] in *;
      cbn [NodeVisitor.visit_BodyItem rest_of_item].
    + assert (entered = set_name_len (set_seen s false) n) as Hentered
        by (unfold entered, set_indent; cbn; rewrite Z.add_0_r; reflexivity).
      rewrite <- Hentered.
      rewrite (first_data_line_corrected entered statement token line lines
                 width widths' eq_refl Hshort Hth Hnm Hlines Hwidths).
      cbv zeta.
      change (_test_name_len entered) with n. fold fired. fold token'.
      destruct (align_tokens line widths' _ _ fired) as [[[line' lp] ep] s1].
      destruct (for_each visit_line s1 lines) as [[lines' s2]|e]; cbn [bind];
        [|reflexivity].
      destruct (for_each _ s2 items) as [[items' s3]|e]; reflexivity.
    + unfold visit_ForLoop, NodeVisitor.generic_visit_ForLoop.
      change (set_indent (set_name_len (set_seen s false) n)
                (indent (set_name_len (set_seen s false) n) + 1))
        with entered.
      rewrite (first_data_line_corrected entered (ForLoop.header forloop)
                 token line lines width widths' eq_refl Hshort Hth Hnm Hlines
                 Hwidths).
      cbv zeta.
      change (_test_name_len entered) with n. fold fired. fold token'.
      destruct (align_tokens line widths' _ _ fired) as [[[line' lp] ep] s1].
      destruct (for_each visit_line s1 lines) as [[lines' s2]|e]; cbn [bind];
        [|reflexivity].
      destruct (for_each visit_Statement s2 (ForLoop.body forloop))
        as [[b s3]|e]; cbn [bind]; [|reflexivity].
      destruct (visit_Statement s3 (ForLoop.end_ forloop)) as [[e' s4]|e];
        cbn [bind]; [|reflexivity].
      destruct (for_each _ _ items) as [[items' s5]|e]; reflexivity.
  - intros sa l ws line_pos exp_pos Hsa.
    pose proof (align_tokens_seen l ws line_pos exp_pos sa Hsa) as H.
    destruct (align_tokens l ws line_pos exp_pos sa) as [[[l' lp] ep] s'].
    exact H.
  - intros sa it it' sb. apply visit_BodyItem_seen.
Qed.

Lemma name_correction_fires_once_witness :
  let name_token := Token.mk Token.NAME (lit "Short") in
  let name := Statement.mk Token.NAME [[name_token]] in
  let call := Token.mk Token.KEYWORD (lit "Log") in
  let arg := Token.mk (Token.OTHER "ARGUMENT") (lit "hello") in
  let statement := Statement.mk Token.KEYWORD [[call; arg]] in
  let blank := Statement.mk (Token.OTHER "COMMENT") [] in
  let for_ := Token.mk (Token.OTHER "FOR") (lit "FOR") in
  let var := Token.mk (Token.OTHER "VARIABLE") (lit "${x}") in
  let end_ := Token.mk (Token.OTHER "END") (lit "END") in
  let forloop :=
    ForLoop.mk (Statement.mk (Token.OTHER "FOR") [[for_; var]]) [statement]
      (Statement.mk (Token.OTHER "END") [[end_]]) in
  let pad n (token : Token.t) :=
    Token.mk (Token.type token) (Py.spaces n ++ Token.value token) in
  visit_TestOrKeyword (ColumnAligner.mk [20; 6] 9 0 true)
    (TestOrKeyword.mk name
       [BodyItem.Stmt blank; BodyItem.Stmt statement; BodyItem.Stmt statement])
  = Ok (TestOrKeyword.mk name
          [BodyItem.Stmt blank;
           BodyItem.Stmt (Statement.mk Token.KEYWORD [[pad 15 call; pad 3 arg]]);
           BodyItem.Stmt (Statement.mk Token.KEYWORD [[pad 20 call; pad 3 arg]])],
        ColumnAligner.mk [20; 6] 5 0 true)
  /\ visit_TestOrKeyword (__init__ [20; 6])
       (TestOrKeyword.mk name [BodyItem.Loop forloop; BodyItem.Stmt statement])
     = Ok (TestOrKeyword.mk name
             [BodyItem.Loop
                (ForLoop.mk
                   (Statement.mk (Token.OTHER "FOR") [[pad 15 for_; pad 3 var]])
                   [Statement.mk Token.KEYWORD [[pad 26 call; arg]]]
                   (Statement.mk (Token.OTHER "END") [[pad 20 end_]]));
              BodyItem.Stmt
                (Statement.mk Token.KEYWORD [[pad 20 call; pad 3 arg]])],
           ColumnAligner.mk [20; 6] 5 0 true).
Proof.
  intros name_token name call arg statement blank for_ var end_ forloop pad.
  split.
  - etransitivity.
    + refine (proj1 (name_correction_fires_once
                       (ColumnAligner.mk [20; 6] 9 0 true)
                       (TestOrKeyword.mk name
                          [BodyItem.Stmt blank; BodyItem.Stmt statement;
                           BodyItem.Stmt statement])
                       name_token [] [BodyItem.Stmt blank]
                       (BodyItem.Stmt statement) [BodyItem.Stmt statement]
                       call [arg] [] 20 [6]
                       eq_refl eq_refl _ eq_refl _ _ _ eq_refl eq_refl)).
      * reflexivity.
      * repeat constructor. exists blank.
        split; [reflexivity|]. split; [discriminate | reflexivity].
      * discriminate.
      * discriminate.
    + reflexivity.
  - etransitivity.
    + refine (proj1 (name_correction_fires_once (__init__ [20; 6])
                       (TestOrKeyword.mk name
                          [BodyItem.Loop forloop; BodyItem.Stmt statement])
                       name_token [] [] (BodyItem.Loop forloop)
                       [BodyItem.Stmt statement] for_ [var] [] 20 [6]
                       eq_refl eq_refl _ eq_refl _ _ _ eq_refl eq_refl)).
      * reflexivity.
      * constructor.
      * discriminate.
      * discriminate.
    + reflexivity.
Defined.

End name_correction.

(** ** The line renderer *)

Section renderer.
Import Writer.
Variable config : configuration.

Lemma _write_statement_spec s statement write_newline :
  _write_statement config s statement write_newline =
  mk (output s
      ++ concat (map (rendered_line config (indent s) write_newline)
                     (Statement.lines statement)))
     (indent s) (_section_seen s) (_test_or_kw_seen s)
     (_test_case_section_headers s).
Proof.
  unfold _write_statement, rendered_line.
  generalize (Py.repeat_str (indent s) (indent_marker config)). intros ind.
  revert s.
  induction (Statement.lines statement) as [|line lines IH]; intros s.
  - simpl. rewrite app_nil_r. destruct s; reflexivity.
  - simpl foldl. rewrite IH.
    destruct write_newline; unfold write; simpl; rewrite <- ?app_assoc;
      reflexivity.
Qed.

(** C7: a statement is written line by line; a line is its token texts
    joined with the separator ([txt_separating_spaces] spaces, or [" | "]
    with pipes), after the indentation of the current depth (empty at depth
    0); with pipes the row is put between ["| "] and [" |"], without pipes
    it is right-trimmed.  The tokens [Log] and [hello] give
    ["| Log | hello |"] with pipes and ["Log    hello"] with four
    separating spaces. *)
Theorem statement_rendering s statement write_newline :
  let indentation := Py.repeat_str (indent s) (indent_marker config) in
  let text line :=
    let values := map Token.value line in
    if pipe_separated config
    then lit "| " ++ (indentation ++ Py.join (lit " | ") values) ++ lit " |"
    else Py.rstrip
           (indentation
            ++ Py.join
                 (replicate (Z.to_nat (txt_separating_spaces config)) " "%char)
                 values) in
  let log_hello :=
    Statement.mk Token.KEYWORD
      [[Token.mk Token.KEYWORD (lit "Log");
        Token.mk (Token.OTHER "ARGUMENT") (lit "hello")]] in
  output (_write_statement config s statement write_newline)
  = output s
    ++ concat (map (fun line =>
                      text line ++ (if write_newline then newline else []))
                   (Statement.lines statement))
  /\ Py.repeat_str 0 (indent_marker config) = []
  /\ (let pipe := mk_configuration true 4 [] in
      output (_write_statement pipe (__init__ pipe) log_hello false)
      = lit "| Log | hello |")
  /\ (let space := mk_configuration false 4 [] in
      output (_write_statement space (__init__ space) log_hello false)
      = lit "Log    hello").
Proof.
  intros indentation text log_hello. repeat split.
  rewrite _write_statement_spec. simpl output. f_equal. f_equal.
  apply map_ext. intros line. unfold rendered_line, row, text, indentation.
  unfold separator, pipes, Py.spaces.
  destruct (pipe_separated config); reflexivity.
Qed.

End renderer.

(** ** The newline after a block's name *)

Section name_line.
Import Writer.
Variable config : configuration.

Lemma visit_Statement_headers s statement s' :
  visit_Statement config s statement = Ok s' ->
  _test_case_section_headers s' = _test_case_section_headers s.
Proof.
  unfold visit_Statement. rewrite _write_statement_spec.
  intros H. injection H as <-. reflexivity.
Qed.

Lemma visit_ForLoop_headers s node s' :
  visit_ForLoop config s node = Ok s' ->
  _test_case_section_headers s' = _test_case_section_headers s.
Proof.
  unfold visit_ForLoop. intros H.
  apply bind_ok in H as (s1 & Hbody & H). injection H as <-.
  rewrite _write_statement_spec. simpl.
  revert Hbody.
  apply (for_each__invariant
           (fun x => _test_case_section_headers x = _test_case_section_headers s)).
  - intros x a x' Hx Ha. rewrite <- Hx. eapply visit_Statement_headers, Ha.
  - rewrite _write_statement_spec. reflexivity.
Qed.

Lemma visit_BodyItem_headers s item s' :
  visit_BodyItem config s item = Ok s' ->
  _test_case_section_headers s' = _test_case_section_headers s.
Proof.
  destruct item; simpl;
    [apply visit_Statement_headers | apply visit_ForLoop_headers].
Qed.

Lemma visit_TestOrKeyword_headers s node s' :
  visit_TestOrKeyword config s node = Ok s' ->
  _test_case_section_headers s' = _test_case_section_headers s.
Proof.
  unfold visit_TestOrKeyword. intros H.
  apply bind_ok in H as (nl & _ & H).
  apply bind_ok in H as (s1 & Hbody & H). injection H as <-. simpl.
  revert Hbody.
  apply (for_each__invariant
           (fun x => _test_case_section_headers x = _test_case_section_headers s)).
  - intros x a x' Hx Ha. rewrite <- Hx. eapply visit_BodyItem_headers, Ha.
  - rewrite _write_statement_spec. simpl. destruct (_test_or_kw_seen s); reflexivity.
Qed.

Lemma visit_SectionItem_headers s item s' :
  visit_SectionItem config s item = Ok s' ->
  _test_case_section_headers s' = _test_case_section_headers s.
Proof.
  destruct item; simpl;
    [apply visit_Statement_headers | apply visit_TestOrKeyword_headers].
Qed.

(** [visit_Section] reaches a block of the section after the header and
    the items before the block. *)
Lemma visit_Section_at_block s section pre node post :
  Sect.body section = pre ++ SectionItem.Block node :: post ->
  visit_Section config s section =
  let* s1 :=
    (let* s0 := visit_Statement config (enter_Section s section)
                  (Sect.header section) in
     for_each_ (visit_SectionItem config) s0 pre) in
  let* s2 := visit_TestOrKeyword config s1 node in
  let* s3 := for_each_ (visit_SectionItem config) s2 post in
  Ok (leave_Section s3).
Proof.
  intros Hbody. unfold visit_Section. rewrite Hbody.
  destruct (visit_Statement config _ _) as [s0|e]; simpl; [|reflexivity].
  rewrite for_each__app.
  destruct (for_each_ _ s0 pre) as [s1|e]; simpl; [|reflexivity].
  destruct (visit_TestOrKeyword config s1 node) as [s2|e]; reflexivity.
Qed.

(** A section is always entered with no truthy [_test_case_section_headers]:
    the field starts as [None] and every section leaves it [False]. *)
Lemma visit_File_headers model s s' :
  truthy (_test_case_section_headers s) = false ->
  visit_File config s model = Ok s' ->
  truthy (_test_case_section_headers s') = false.
Proof.
  unfold visit_File.
  apply (for_each__invariant
           (fun x => truthy (_test_case_section_headers x) = false)).
  intros x section x' _ H. unfold visit_Section in H.
  apply bind_ok in H as (x0 & _ & H). apply bind_ok in H as (x1 & _ & H).
  injection H as <-. reflexivity.
Qed.

Lemma enter_Section_truthy s section :
  truthy (_test_case_section_headers s) = false ->
  truthy (_test_case_section_headers (enter_Section s section))
  = bool_decide (Sect.type section = Token.TESTCASE_HEADER)
    && bool_decide
         (1 < Z.of_nat (length (Statement.tokens (Sect.header section)))).
Proof.
  intros Hs. unfold enter_Section, Aligner.header_widths.
  assert (truthy (_test_case_section_headers
                    (if _section_seen s then write s newline else s)) = false)
    as Hs' by (destruct (_section_seen s); exact Hs).
  destruct (bool_decide (Sect.type section = _)); [|exact Hs'].
  case_bool_decide as Hlen; [|exact Hs'].
  destruct (Statement.tokens (Sect.header section)); [simpl in Hlen; lia|].
  reflexivity.
Qed.

(** C5: the newline after a block's name line is left out exactly when the
    section is a test-case section whose header has more than one column
    and the name token is shorter than 18 characters.  [s1] is the state in
    which the traversal of the section reaches the block; the block writes
    each line of its name followed by a newline unless [suppressed]. *)
Theorem name_line_newline_suppressed
    s section pre node post name_token name_rest s1 :
  truthy (_test_case_section_headers s) = false ->
  Sect.body section = pre ++ SectionItem.Block node :: post ->
  Statement.tokens (TestOrKeyword.name node) = name_token :: name_rest ->
  (let* s0 := visit_Statement config (enter_Section s section)
                (Sect.header section) in
   for_each_ (visit_SectionItem config) s0 pre) = Ok s1 ->
  let suppressed :=
    bool_decide (Sect.type section = Token.TESTCASE_HEADER)
    && bool_decide
         (1 < Z.of_nat (length (Statement.tokens (Sect.header section))))
    && bool_decide (Py.len (Token.value name_token) < 18) in
  let s2 := if _test_or_kw_seen s1 then write s1 newline else s1 in
  let s3 := _write_statement config s2 (TestOrKeyword.name node)
              (negb suppressed) in
  visit_TestOrKeyword config s1 node
  = (let* s4 := for_each_ (visit_BodyItem config)
                  (set_indent s3 (indent s3 + 1)) (TestOrKeyword.body node) in
     Ok (set_test_or_kw_seen (set_indent s4 (indent s4 - 1)) true))
  /\ output s3
     = output s2
       ++ concat (map (fun line =>
                         row config
                           (Py.repeat_str (indent s2) (indent_marker config))
                           line
                         ++ (if suppressed then [] else newline))
                      (Statement.lines (TestOrKeyword.name node))).
Proof.
  intros Hs Hbody Htokens Hreach suppressed s2 s3.
  assert (truthy (_test_case_section_headers s2)
          = bool_decide (Sect.type section = Token.TESTCASE_HEADER)
            && bool_decide
                 (1 < Z.of_nat (length (Statement.tokens (Sect.header section)))))
    as Hheaders.
  { rewrite <- (enter_Section_truthy s section Hs).
    apply bind_ok in Hreach as (s0 & Hheader & Hpre).
    apply visit_Statement_headers in Hheader.
    assert (_test_case_section_headers s1 = _test_case_section_headers s0) as H1.
    { revert Hpre.
      apply (for_each__invariant
               (fun x => _test_case_section_headers x
                         = _test_case_section_headers s0)); [|reflexivity].
      intros x a x' Hx Ha. rewrite <- Hx. eapply visit_SectionItem_headers, Ha. }
    unfold s2. rewrite <- Hheader, <- H1.
    destruct (_test_or_kw_seen s1); reflexivity. }
  assert (name_newline s2 node = Ok (negb suppressed)) as Hnl.
  { unfold name_newline, suppressed, Statement.first_token.
    rewrite Hheaders, Htokens.
    destruct (bool_decide (Sect.type section = _) && bool_decide (1 < _));
      simpl; [|reflexivity].
    f_equal. do 2 case_bool_decide; simpl; try reflexivity; lia. }
  split.
  - unfold visit_TestOrKeyword. fold s2. rewrite Hnl. reflexivity.
  - unfold s3. rewrite _write_statement_spec. simpl output. f_equal. f_equal.
    apply map_ext. intros line. unfold rendered_line.
    destruct suppressed; reflexivity.
Qed.

End name_line.

Lemma name_line_newline_suppressed_witness :
  let config := Writer.mk_configuration false 4 [] in
  let title s := Token.mk Token.TESTCASE_HEADER (lit s) in
  let header :=
    Statement.mk Token.TESTCASE_HEADER [[title "*** Test Cases ***"; title "Action"]] in
  let name := Statement.mk Token.NAME [[Token.mk Token.NAME (lit "Short")]] in
  let call :=
    Statement.mk Token.KEYWORD
      [[Token.mk Token.KEYWORD (lit "Log");
        Token.mk (Token.OTHER "ARGUMENT") (lit "hello")]] in
  let node := TestOrKeyword.mk name [BodyItem.Stmt call] in
  let section :=
    Sect.mk Token.TESTCASE_HEADER header [SectionItem.Block node] in
  let s1 :=
    Writer.mk (lit "*** Test Cases ***    Action" ++ Writer.newline)
      0 false false (Writer.HList [18; 6]) in
  Writer.visit_TestOrKeyword config s1 node
  = Ok (Writer.mk
          (lit "*** Test Cases ***    Action" ++ Writer.newline
           ++ lit "Short" ++ lit "    Log    hello" ++ Writer.newline)
          0 false true (Writer.HList [18; 6])).
Proof.
  intros config title header name call node section s1.
  etransitivity.
  - exact (proj1 (name_line_newline_suppressed config (Writer.__init__ config)
                    section [] node [] (Token.mk Token.NAME (lit "Short")) []
                    s1 eq_refl eq_refl eq_refl eq_refl)).
  - reflexivity.
Defined.

(** ** The sections the column passes run on *)

(** C1 as the spec states it fails: on a keyword table with three header
    columns the aligner does not run the column passes. *)
Lemma keyword_table_not_aligned :
  let section := example_table Token.KEYWORD_HEADER "*** Keywords ***" in
  Sect.type section = Token.KEYWORD_HEADER
  /\ 1 < header_columns section
  /\ Aligner.visit_Section tt section <> column_passes section.
Proof. repeat split. vm_compute. discriminate. Qed.

(** C1, amended: the column width calculator and the column aligner run on
    a test-case section whose header has more than one column, and on no
    keyword section: a keyword section comes out of the aligner unchanged. *)
Theorem column_passes_on_test_case_tables_only section :
  Sect.type section = Token.TESTCASE_HEADER
  \/ Sect.type section = Token.KEYWORD_HEADER ->
  Aligner.visit_Section tt section
  = if bool_decide (Sect.type section = Token.TESTCASE_HEADER)
       && bool_decide (1 < header_columns section)
    then column_passes section
    else Ok (section, tt).
Proof.
  intros Htype. unfold Aligner.visit_Section, column_passes, header_columns.
  destruct Htype as [-> | ->]; simpl.
  - case_bool_decide; [|reflexivity].
    destruct (Aligner.aligner_widths section) as [widths|e]; reflexivity.
  - reflexivity.
Qed.

Lemma column_passes_on_test_case_tables_only_witness :
  let section := example_table Token.KEYWORD_HEADER "*** Keywords ***" in
  Aligner.visit_Section tt section = Ok (section, tt).
Proof.
  intros section.
  exact (column_passes_on_test_case_tables_only section (or_intror eq_refl)).
Defined.

(** ** Visits as loops over the statements *)

Section traversal.
Context {S : Type}.
Variable visit_Statement : S -> Statement.t -> result (Statement.t * S).

Lemma final_state_for_each_cons {A} (f : S -> A -> result (A * S)) s a l :
  final_state (for_each f s (a :: l))
  = let* s1 := final_state (f s a) in final_state (for_each f s1 l).
Proof.
  simpl. destruct (f s a) as [[a' s1]|e]; simpl; [|reflexivity].
  destruct (for_each f s1 l) as [[l' s2]|e]; reflexivity.
Qed.

Lemma final_state_for_each_app {A} (f : S -> A -> result (A * S)) s l1 l2 :
  final_state (for_each f s (l1 ++ l2))
  = let* s1 := final_state (for_each f s l1) in final_state (for_each f s1 l2).
Proof.
  rewrite for_each_app.
  destruct (for_each f s l1) as [[l1' s1]|e]; simpl; [|reflexivity].
  destruct (for_each f s1 l2) as [[l2' s2]|e]; reflexivity.
Qed.

(** A loop over nodes is the loop over their statements. *)
Lemma final_state_for_each_concat {A} (g : S -> A -> result (A * S))
    (statements : A -> list Statement.t) :
  (forall s a, final_state (g s a)
               = final_state (for_each visit_Statement s (statements a))) ->
  forall s l,
    final_state (for_each g s l)
    = final_state (for_each visit_Statement s (concat (map statements l))).
Proof.
  intros Hg s l. revert s. induction l as [|a l IH]; intros s; [reflexivity|].
  rewrite final_state_for_each_cons. simpl concat.
  rewrite final_state_for_each_app, Hg.
  destruct (final_state (for_each visit_Statement s (statements a))); simpl;
    [apply IH | reflexivity].
Qed.

Lemma final_state_ForLoop s node :
  final_state (NodeVisitor.visit_ForLoop visit_Statement s node)
  = final_state (for_each visit_Statement s (statements_of_loop node)).
Proof.
  unfold NodeVisitor.visit_ForLoop, NodeVisitor.generic_visit_ForLoop,
    statements_of_loop.
  rewrite final_state_for_each_cons.
  destruct (visit_Statement s (ForLoop.header node)) as [[h s1]|e]; simpl;
    [|reflexivity].
  rewrite final_state_for_each_app.
  destruct (for_each visit_Statement s1 (ForLoop.body node)) as [[b s2]|e];
    simpl; [|reflexivity].
  destruct (visit_Statement s2 (ForLoop.end_ node)) as [[e' s3]|e]; reflexivity.
Qed.

Lemma final_state_BodyItem s item :
  final_state
    (NodeVisitor.visit_BodyItem visit_Statement
       (NodeVisitor.visit_ForLoop visit_Statement) s item)
  = final_state (for_each visit_Statement s (statements_of_body_item item)).
Proof.
  destruct item as [statement|forloop];
    unfold NodeVisitor.visit_BodyItem, statements_of_body_item.
  - simpl. destruct (visit_Statement s statement) as [[st s1]|e]; reflexivity.
  - rewrite <- final_state_ForLoop.
    destruct (NodeVisitor.visit_ForLoop visit_Statement s forloop)
      as [[f s1]|e]; reflexivity.
Qed.

Lemma final_state_TestOrKeyword s node :
  final_state (NodeVisitor.visit_TestOrKeyword visit_Statement s node)
  = final_state (for_each visit_Statement s (statements_of_block node)).
Proof.
  unfold NodeVisitor.visit_TestOrKeyword,
    NodeVisitor.generic_visit_TestOrKeyword, statements_of_block.
  rewrite final_state_for_each_cons.
  destruct (visit_Statement s (TestOrKeyword.name node)) as [[n s1]|e]; simpl;
    [|reflexivity].
  rewrite <- (final_state_for_each_concat _ _ final_state_BodyItem).
  destruct (for_each _ s1 (TestOrKeyword.body node)) as [[b s2]|e]; reflexivity.
Qed.

Lemma final_state_SectionItem s item :
  final_state
    (NodeVisitor.visit_SectionItem visit_Statement
       (NodeVisitor.visit_TestOrKeyword visit_Statement) s item)
  = final_state (for_each visit_Statement s (statements_of_section_item item)).
Proof.
  destruct item as [statement|node];
    unfold NodeVisitor.visit_SectionItem, statements_of_section_item.
  - simpl. destruct (visit_Statement s statement) as [[st s1]|e]; reflexivity.
  - rewrite <- final_state_TestOrKeyword.
    destruct (NodeVisitor.visit_TestOrKeyword visit_Statement s node)
      as [[f s1]|e]; reflexivity.
Qed.

Lemma final_state_Section s section :
  final_state (NodeVisitor.visit_Section visit_Statement s section)
  = final_state (for_each visit_Statement s (statements_of_section section)).
Proof.
  unfold NodeVisitor.visit_Section, NodeVisitor.generic_visit_Section,
    statements_of_section.
  rewrite final_state_for_each_cons.
  destruct (visit_Statement s (Sect.header section)) as [[h s1]|e]; simpl;
    [|reflexivity].
  rewrite <- (final_state_for_each_concat _ _ final_state_SectionItem).
  destruct (for_each _ s1 (Sect.body section)) as [[b s2]|e]; reflexivity.
Qed.

End traversal.

(** ** The width array *)

Section width_array.
Import ColumnWidthCounter.

Lemma count_tokens_length line (index : nat) widths :
  (index < length widths)%nat ->
  length (count_tokens line index widths)
  = Nat.max (length widths) (index + length line + 1).
Proof.
  revert index widths.
  induction line as [|token line IH]; intros index widths Hindex.
  - simpl. lia.
  - cbn [count_tokens]. cbv zeta. case_bool_decide as Hcol.
    + rewrite IH; rewrite length_app; simpl; lia.
    + destruct (widths !! S index) as [w|]; [case_bool_decide|];
        rewrite IH; rewrite ?length_insert; simpl; lia.
Qed.

Lemma count_tokens_name_column line (index : nat) widths :
  (1 <= length widths)%nat ->
  count_tokens line index widths !! 0%nat = widths !! 0%nat.
Proof.
  revert index widths.
  induction line as [|token line IH]; intros index widths Hlen; [reflexivity|].
  cbn [count_tokens]. cbv zeta. case_bool_decide as Hcol.
  - rewrite IH by (rewrite length_app; lia).
    apply lookup_app_l. lia.
  - destruct (widths !! S index) as [w|]; [case_bool_decide|];
      rewrite IH; rewrite ?length_insert; try lia; try reflexivity.
    apply list_lookup_insert_ne. lia.
Qed.

Lemma count_all_length widths lines :
  (1 <= length widths)%nat ->
  length (count_all widths lines)
  = Nat.max (length widths) (S (max_list_with length lines)).
Proof.
  unfold count_all. revert widths.
  induction lines as [|line lines IH]; intros widths Hlen; simpl.
  - lia.
  - rewrite IH; rewrite count_tokens_length; lia.
Qed.

Lemma count_all_name_column widths lines :
  (1 <= length widths)%nat ->
  count_all widths lines !! 0%nat = widths !! 0%nat.
Proof.
  unfold count_all. revert widths.
  induction lines as [|line lines IH]; intros widths Hlen; simpl; [reflexivity|].
  rewrite IH by (rewrite count_tokens_length; lia).
  apply count_tokens_name_column, Hlen.
Qed.

Lemma count_lines_widths lines s :
  widths (count_lines lines s) = count_all (widths s) lines.
Proof.
  unfold count_lines, count_all. revert s.
  induction lines as [|line lines IH]; intros s; simpl; [reflexivity|].
  rewrite IH. reflexivity.
Qed.

(** The counter's widths after a run over statements: the data lines, in
    order, counted into the initial widths. *)
Lemma counter_widths statements s s' :
  final_state (for_each visit_Statement s statements) = Ok s' ->
  widths s'
  = count_all (widths s)
      (concat (map Statement.lines (List.filter is_data statements))).
Proof.
  revert s. induction statements as [|statement statements IH]; intros s H.
  - simpl in H. injection H as <-. reflexivity.
  - rewrite final_state_for_each_cons in H.
    apply bind_ok in H as (s1 & Hs1 & H). apply IH in H. rewrite H. clear H IH.
    unfold visit_Statement, final_state in Hs1.
    cbn [List.filter]. unfold is_data at 2.
    destruct (bool_decide (Statement.type statement = Token.NAME)).
    + apply bind_ok in Hs1 as ([st s2] & Hs1 & H). injection H as <-.
      apply bind_ok in Hs1 as (token & _ & Hs1). injection Hs1 as _ <-.
      reflexivity.
    + destruct (bool_decide (Statement.type statement = Token.TESTCASE_HEADER)).
      * simpl in Hs1. injection Hs1 as <-. reflexivity.
      * simpl in Hs1. injection Hs1 as <-.
        rewrite count_lines_widths. simpl. unfold count_all.
        rewrite foldl_app. reflexivity.
Qed.

Lemma counted_widths_spec section widths :
  Aligner.counted_widths section = Ok widths ->
  widths = count_all (Aligner.header_widths section) (data_lines section).
Proof.
  unfold Aligner.counted_widths. intros H.
  apply bind_ok in H as ([section' counter] & Hvisit & H). injection H as <-.
  apply (counter_widths (statements_of_section section)
           (__init__ (Aligner.header_widths section))).
  unfold visit_Section in Hvisit.
  rewrite <- final_state_Section, Hvisit. reflexivity.
Qed.

(** C2 as the spec states it fails: for the example table the counter
    gives one width per column, [18; 6; 8], and the aligner receives
    [18; 6], the name column included, not [6; 8]. *)
Lemma aligner_widths_keep_name_column :
  let section := example_table Token.TESTCASE_HEADER "*** Test Cases ***" in
  Aligner.counted_widths section = Ok [18; 6; 8]
  /\ Aligner.aligner_widths section = Ok [18; 6]
  /\ Aligner.aligner_widths section <> Ok (drop 1 [18; 6; 8]).
Proof. repeat split. vm_compute. discriminate. Qed.

(** C2, amended: for a section whose header has more than one column the
    counter's width array has one entry per column, the name column
    (column 0, the width of the first header title) included, and the
    column aligner is given that array without its last entry: the entry
    of the name column stays, the entry of the last column goes. *)
Theorem aligner_widths_drop_last section widths :
  1 < header_columns section ->
  Aligner.counted_widths section = Ok widths ->
  length widths = columns section
  /\ widths !! 0%nat = Aligner.header_widths section !! 0%nat
  /\ Aligner.aligner_widths section = Ok (take (length widths - 1) widths)
  /\ take (length widths - 1) widths !! 0%nat = widths !! 0%nat
  /\ length (take (length widths - 1) widths) = (columns section - 1)%nat.
Proof.
  unfold header_columns. intros Hheader Hcounted.
  assert (length (Aligner.header_widths section)
          = length (Statement.tokens (Sect.header section))) as Hlen
    by (unfold Aligner.header_widths; apply length_map).
  pose proof (counted_widths_spec _ _ Hcounted) as ->.
  assert (length (count_all (Aligner.header_widths section) (data_lines section))
          = columns section) as Hcolumns.
  { rewrite count_all_length by lia. unfold columns. rewrite Hlen. reflexivity. }
  assert (2 <= columns section)%nat as Htwo by (unfold columns; lia).
  repeat split.
  - exact Hcolumns.
  - apply count_all_name_column. lia.
  - unfold Aligner.aligner_widths. rewrite Hcounted. reflexivity.
  - apply lookup_take_lt. lia.
  - rewrite length_take. lia.
Qed.

Lemma aligner_widths_drop_last_witness :
  let section := example_table Token.TESTCASE_HEADER "*** Test Cases ***" in
  1 < header_columns section
  /\ Aligner.counted_widths section = Ok [18; 6; 8]
  /\ Aligner.aligner_widths section = Ok (take (3 - 1) [18; 6; 8]).
Proof.
  intros section.
  assert (1 < header_columns section) as Hheader by reflexivity.
  assert (Aligner.counted_widths section = Ok [18; 6; 8]) as Hcounted
    by reflexivity.
  split; [exact Hheader|]. split; [exact Hcounted|].
  exact (proj1 (proj2 (proj2
           (aligner_widths_drop_last section [18; 6; 8] Hheader Hcounted)))).
Defined.

End width_array.

(** ** A section with no header column *)

Section zero_columns.
Import Writer.
Variable config : configuration.





End zero_columns.



(** ** The setting normalizer *)

Section setting_cleaner.
Variable SETTING_TOKENS : list Token.kind.

Lemma cased_to_lower c :
  (Py.isupper (Py.to_lower c) || Py.islower (Py.to_lower c))
  = (Py.isupper c || Py.islower c)
  /\ Py.to_lower (Py.to_lower c) = Py.to_lower c
  /\ Py.to_upper (Py.to_lower c) = Py.to_upper c.
Proof. destruct c as [[] [] [] [] [] [] [] []]; vm_compute; auto. Qed.

(** [lower()] before [title()] changes nothing. *)
Lemma title_lower name : Py.title (Py.lower name) = Py.title name.
Proof.
  unfold Py.title, Py.lower. generalize false.
  induction name as [|c name IH]; intros b; [reflexivity|].
  simpl. destruct (cased_to_lower c) as (-> & -> & ->).
  rewrite !IH.
  destruct (Py.isupper c || Py.islower c) eqn:Hcased; [reflexivity|].
  apply orb_false_elim in Hcased as [Hupper _].
  unfold Py.to_lower. rewrite Hupper. reflexivity.
Qed.

Lemma tokens_set_first_value lines token rest v :
  concat lines = token :: rest ->
  concat (Statement.set_first_value lines v) = Token.set_value token v :: rest.
Proof.
  induction lines as [|[|t line] lines IH]; simpl; intros H.
  - discriminate.
  - apply IH, H.
  - injection H as -> <-. reflexivity.
Qed.

Lemma assign_first_value_spec statement token rest v :
  Statement.tokens statement = token :: rest ->
  exists statement',
    Statement.assign_first_value statement v = Ok statement'
    /\ Statement.type statement' = Statement.type statement
    /\ Statement.tokens statement' = Token.set_value token v :: rest.
Proof.
  intros H. unfold Statement.assign_first_value, Statement.first_token.
  rewrite H. simpl. eexists. split; [reflexivity|]. split; [reflexivity|].
  apply tokens_set_first_value, H.
Qed.

(** C8 as the spec states it fails: the name [" library"] keeps its
    leading space, it is not trimmed before it is title-cased. *)
Lemma setting_name_not_trimmed :
  let statement :=
    Statement.mk (Token.OTHER "LIBRARY")
      [[Token.mk (Token.OTHER "LIBRARY") (lit " library");
        Token.mk (Token.OTHER "ARGUMENT") (lit "OperatingSystem")]] in
  claimed_cleaned (lit " library") = lit "Library"
  /\ SettingCleaner.visit_Statement [Token.OTHER "LIBRARY"] tt statement
     = Ok (Statement.mk (Token.OTHER "LIBRARY")
             [[Token.mk (Token.OTHER "LIBRARY") (lit " Library");
               Token.mk (Token.OTHER "ARGUMENT") (lit "OperatingSystem")]], tt)
  /\ SettingCleaner.cleaned (lit " library") <> claimed_cleaned (lit " library").
Proof. repeat split. vm_compute. discriminate. Qed.

(** C8, amended: for a statement of a setting kind the normalizer rewrites
    the first token only.  A name without surrounding white space that
    begins with ['['] loses its first and last character, the interior is
    trimmed and title-cased and put back in brackets; a name whose trimmed
    text does not begin with ['['] is title-cased as a whole, without being
    trimmed.  ["[tags]"] becomes ["[Tags]"] and ["library"] becomes
    ["Library"]. *)
Theorem setting_name_title_cased statement token rest :
  Statement.type statement ∈ SETTING_TOKENS ->
  Statement.tokens statement = token :: rest ->
  Py.strip (Token.value token) = Token.value token
  \/ Py.startswith (Py.strip (Token.value token)) (lit "[") = false ->
  let name := Token.value token in
  let normalised :=
    if Py.startswith (Py.strip name) (lit "[")
    then lit "[" ++ Py.title (Py.strip (Py.slice_1_m1 (Py.strip name))) ++ lit "]"
    else Py.title name in
  (exists statement',
     SettingCleaner.visit_Statement SETTING_TOKENS tt statement
     = Ok (statement', tt)
     /\ Statement.type statement' = Statement.type statement
     /\ Statement.tokens statement'
        = Token.mk (Token.type token) normalised :: rest)
  /\ SettingCleaner.cleaned (lit "[tags]") = lit "[Tags]"
  /\ SettingCleaner.cleaned (lit "library") = lit "Library".
Proof.
  intros Hkind Htokens Hname name normalised.
  split; [|split; reflexivity].
  unfold SettingCleaner.visit_Statement.
  rewrite (bool_decide_eq_true_2 _ Hkind).
  unfold Statement.first_token at 1. rewrite Htokens. cbn [bind].
  destruct (assign_first_value_spec statement token rest
              (SettingCleaner.cleaned (Token.value token)) Htokens)
    as (statement' & -> & Htype & Htokens').
  exists statement'. split; [reflexivity|]. split; [exact Htype|].
  rewrite Htokens'. unfold Token.set_value. f_equal. f_equal.
  unfold SettingCleaner.cleaned, normalised, name.
  rewrite !title_lower.
  destruct Hname as [Htrim | Hplain].
  - rewrite Htrim. reflexivity.
  - rewrite Hplain. reflexivity.
Qed.

(** A statement of another kind is left as it is. *)
Lemma other_statement_unchanged statement :
  Statement.type statement ∉ SETTING_TOKENS ->
  SettingCleaner.visit_Statement SETTING_TOKENS tt statement = Ok (statement, tt).
Proof.
  intros H. unfold SettingCleaner.visit_Statement.
  rewrite (bool_decide_eq_false_2 _ H). reflexivity.
Qed.

End setting_cleaner.

Lemma setting_name_title_cased_witness :
  let statement :=
    Statement.mk (Token.OTHER "TAGS")
      [[Token.mk (Token.OTHER "TAGS") (lit "[tags]");
        Token.mk (Token.OTHER "ARGUMENT") (lit "smoke")]] in
  exists statement',
    SettingCleaner.visit_Statement [Token.OTHER "TAGS"] tt statement
    = Ok (statement', tt)
    /\ Statement.type statement' = Token.OTHER "TAGS"
    /\ Statement.tokens statement'
       = [Token.mk (Token.OTHER "TAGS") (lit "[Tags]");
          Token.mk (Token.OTHER "ARGUMENT") (lit "smoke")].
Proof.
  intros statement.
  exact (proj1 (setting_name_title_cased [Token.OTHER "TAGS"] statement
                  (Token.mk (Token.OTHER "TAGS") (lit "[tags]"))
                  [Token.mk (Token.OTHER "ARGUMENT") (lit "smoke")]
                  ltac:(apply list_elem_of_here) eq_refl (or_introl eq_refl))).
Defined.

(** ** The separator stripper *)

Section separator_remover.
Import SeparatorRemover.

Lemma append_value_nil token : append_value [] token = token.
Proof. destruct token. unfold append_value. simpl. rewrite app_nil_r. reflexivity. Qed.

Lemma append_value_app a b token :
  append_value b (append_value a token) = append_value (a ++ b) token.
Proof. unfold append_value. simpl. rewrite app_assoc. reflexivity. Qed.

(** The loop, from any point of the iteration: [done] are the tokens
    already passed; with [prev] set, they end with the token [prev] refers
    to and the separators passed since. *)
Lemma header_loop_spec rest :
  (forall done,
     header_loop rest (length done) None (done ++ rest)
     = done ++ run_header_values rest)
  /\ (forall before title separators,
        header_loop rest (length (before ++ title :: separators))
          (Some (length before)) (before ++ title :: separators ++ rest)
        = before
          ++ append_value (concat (map kept_spacing (separator_run rest))) title
          :: separators ++ run_header_values rest).
Proof.
  induction rest as [|token rest [IHnone IHsome]].
  - split; intros; simpl; rewrite ?append_value_nil; reflexivity.
  - assert (forall done,
              header_loop rest (S (length done))
                (if is_header_title token then Some (length done) else None)
                (done ++ token :: rest)
              = done ++ (if is_header_title token
                         then append_value
                                (concat (map kept_spacing (separator_run rest)))
                                token
                         else token) :: run_header_values rest) as Hstep.
    { intros done. destruct (is_header_title token).
      - specialize (IHsome done token []).
        rewrite length_app in IHsome. simpl in IHsome.
        rewrite Nat.add_1_r in IHsome. exact IHsome.
      - specialize (IHnone (done ++ [token])).
        rewrite length_app, <- !app_assoc in IHnone. simpl in IHnone.
        rewrite Nat.add_1_r in IHnone. exact IHnone. }
    split.
    + intros done. cbn [header_loop run_header_values].
      fold (is_header_title token).
      destruct (bool_decide (Token.type token = Token.SEPARATOR));
        destruct (is_header_title token) eqn:Htitle;
        exact (Hstep done).
    + intros before title separators.
      cbn [header_loop run_header_values separator_run].
      fold (is_header_title token). fold (is_separator token).
      destruct (is_separator token) eqn:Hsep.
      * assert (is_header_title token = false) as ->.
        { unfold is_separator, is_header_title in *.
          apply bool_decide_eq_true in Hsep.
          apply bool_decide_eq_false. rewrite Hsep. discriminate. }
        rewrite alter_app_r_alt by lia. rewrite Nat.sub_diag. cbn [alter list_alter].
        specialize (IHsome before
                      (append_value (Py.slice_to_m4 (Token.value token)) title)
                      (separators ++ [token])).
        rewrite <- !app_assoc in IHsome. simpl in IHsome.
        replace (length (before ++ _ :: separators ++ [token]))
          with (S (length (before ++ title :: separators))) in IHsome
          by (rewrite !length_app; simpl; rewrite length_app; simpl; lia).
        rewrite IHsome, append_value_app. simpl. reflexivity.
      * specialize (Hstep (before ++ title :: separators)).
        rewrite <- !app_assoc in Hstep. simpl in Hstep.
        rewrite append_value_nil.
        destruct (is_header_title token); rewrite Hstep; reflexivity.
Qed.

Lemma _add_whitespace_to_header_values_spec tokens :
  _add_whitespace_to_header_values tokens = run_header_values tokens.
Proof. apply (proj1 (header_loop_spec tokens) []). Qed.

Lemma run_header_values_length tokens :
  length (run_header_values tokens) = length tokens.
Proof. induction tokens as [|t tokens IH]; simpl; [reflexivity | rewrite IH; reflexivity]. Qed.

Lemma concat_regroup {A} (lines : list (list A)) (l : list A) :
  length l = length (concat lines) ->
  concat (Statement.regroup (map length lines) l) = l.
Proof.
  revert l. induction lines as [|line lines IH]; intros l Hlen; simpl in *.
  - destruct l; [reflexivity | discriminate].
  - rewrite length_app in Hlen.
    rewrite IH by (rewrite length_drop; lia). apply take_drop.
Qed.

Lemma concat_filter {A} (f : A -> bool) (lines : list (list A)) :
  concat (map (List.filter f) lines) = List.filter f (concat lines).
Proof.
  induction lines as [|line lines IH]; simpl; [reflexivity|].
  rewrite List.filter_app, IH. reflexivity.
Qed.

(** The tokens of a statement after [statement.tokens = ...] *)
Lemma tokens_assign_tokens statement mutate keep :
  length (mutate (Statement.tokens statement))
  = length (Statement.tokens statement) ->
  Statement.tokens (Statement.assign_tokens statement mutate keep)
  = List.filter keep (mutate (Statement.tokens statement)).
Proof.
  intros Hlen. unfold Statement.assign_tokens, Statement.tokens at 1. simpl.
  rewrite concat_filter, concat_regroup; [reflexivity | exact Hlen].
Qed.

(** C9 as the spec states it fails: of two separators in a row after a
    header title, the second one adds its spacing to the title too. *)
Lemma second_separator_counts :
  let title s := Token.mk Token.TESTCASE_HEADER (lit s) in
  let gap s := Token.mk Token.SEPARATOR (lit s) in
  let statement :=
    Statement.mk Token.TESTCASE_HEADER
      [[title "*** Test Cases ***"; gap "      "; gap "        ";
        title "Action"; Token.mk Token.EOL (lit "")]] in
  List.filter kept (claimed_header_values (Statement.tokens statement))
  = [title "*** Test Cases ***  "; title "Action"]
  /\ visit_Statement tt statement
     = Ok (Statement.mk Token.TESTCASE_HEADER
             [[title "*** Test Cases ***      "; title "Action"]], tt)
  /\ (forall statement',
        visit_Statement tt statement = Ok (statement', tt) ->
        Statement.tokens statement'
        <> List.filter kept (claimed_header_values (Statement.tokens statement))).
Proof.
  repeat split. intros statement' H. vm_compute in H. injection H as <-.
  vm_compute. discriminate.
Qed.

(** C9, amended: the stripper removes every separator, end-of-line and
    legacy-indent token of every statement and keeps the other tokens in
    order; in a test-case header statement, and only there, each header
    title first takes, for every separator of the run of separators that
    follows it, that separator's text without its last four characters;
    a separator after any other token adds nothing. *)
Theorem separators_stripped statement :
  let tokens := Statement.tokens statement in
  exists statement',
    visit_Statement tt statement = Ok (statement', tt)
    /\ Statement.type statement' = Statement.type statement
    /\ Statement.tokens statement'
       = List.filter kept
           (if bool_decide (Statement.type statement = Token.TESTCASE_HEADER)
            then run_header_values tokens
            else tokens)
    /\ Forall (fun token =>
                Token.type token <> Token.SEPARATOR
                /\ Token.type token <> Token.EOL
                /\ Token.type token <> Token.OLD_FOR_INDENT)
              (Statement.tokens statement').
Proof.
  intros tokens. unfold visit_Statement. eexists. split; [reflexivity|].
  split; [reflexivity|].
  assert (Statement.tokens
            (Statement.assign_tokens statement
               (if bool_decide (Statement.type statement = Token.TESTCASE_HEADER)
                then _add_whitespace_to_header_values
                else fun tokens => tokens) kept)
          = List.filter kept
              (if bool_decide (Statement.type statement = Token.TESTCASE_HEADER)
               then run_header_values tokens
               else tokens)) as Htokens.
  { rewrite tokens_assign_tokens.
    - destruct (bool_decide _);
        [rewrite _add_whitespace_to_header_values_spec|]; reflexivity.
    - destruct (bool_decide _); [|reflexivity].
      rewrite _add_whitespace_to_header_values_spec.
      apply run_header_values_length. }
  split; [exact Htokens|].
  rewrite Htokens. apply Forall_forall. intros token Hin.
  apply list_elem_of_In, List.filter_In in Hin as [_ Hkept].
  unfold kept in Hkept. apply negb_true_iff in Hkept.
  apply orb_false_elim in Hkept as [Hkept Hindent].
  apply orb_false_elim in Hkept as [Heol Hsep].
  apply bool_decide_eq_false in Heol, Hsep, Hindent. auto.
Qed.

End separator_remover.

(** ** The whole pipeline on a small document *)

Example write_short_block :
  let token type s := Token.mk type (lit s) in
  let header :=
    Statement.mk Token.TESTCASE_HEADER
      [[token Token.TESTCASE_HEADER "*** Test Cases ***";
        token Token.SEPARATOR "      ";
        token Token.TESTCASE_HEADER "Action";
        token Token.SEPARATOR "    ";
        token Token.TESTCASE_HEADER "Argument";
        token Token.EOL ""]] in
  let name := Statement.mk Token.NAME [[token Token.NAME "Short"; token Token.EOL ""]] in
  let call :=
    Statement.mk Token.KEYWORD
      [[token Token.SEPARATOR "    "; token Token.KEYWORD "Log";
        token Token.SEPARATOR "    "; token (Token.OTHER "ARGUMENT") "hello";
        token Token.EOL ""]] in
  let model :=
    [Sect.mk Token.TESTCASE_HEADER header
       [SectionItem.Block
          (TestOrKeyword.mk name [BodyItem.Stmt call; BodyItem.Stmt call])]] in
  _DataFileWriter.write [] (Writer.mk_configuration false 4 []) model
  = Ok (lit "*** Test Cases ***      Action    Argument" ++ Writer.newline
        ++ lit "Short                   Log       hello" ++ Writer.newline
        ++ lit "                        Log       hello" ++ Writer.newline)
  /\ _DataFileWriter.write [] (Writer.mk_configuration true 4 []) model
     = Ok (lit "| *** Test Cases ***   | Action | Argument |" ++ Writer.newline
           ++ lit "| Short ||    |                Log |    hello |"
           ++ Writer.newline
           ++ lit "|    |                     Log |    hello |"
           ++ Writer.newline).
Proof. split; reflexivity. Qed.

(** * Further properties *)

(** ** The width array covers every data token *)

Section counter_cover.
Import ColumnWidthCounter.

(** Counting a line never lowers a width. *)
Lemma count_tokens_grows line (index : nat) widths (j : nat) w :
  widths !! j = Some w ->
  exists w', count_tokens line index widths !! j = Some w' /\ w <= w'.
Proof.
  revert index widths w.
  induction line as [|token line IH]; intros index widths w Hj.
  - exists w. split; [exact Hj | lia].
  - cbn [count_tokens]. cbv zeta. case_bool_decide as Hcol.
    + apply IH. apply lookup_app_l_Some, Hj.
    + destruct (widths !! S index) as [w0|] eqn:Hcolw; [|apply IH, Hj].
      case_bool_decide as Hlonger; [|apply IH, Hj].
      destruct (decide (j = S index)) as [->|Hne].
      * assert (w0 = w) as -> by congruence.
        destruct (IH (S index) (<[S index := Py.len (Token.value token)]> widths)
                    (Py.len (Token.value token))) as (w' & Hw' & Hle).
        { apply list_lookup_insert_eq. lia. }
        exists w'. split; [exact Hw' | lia].
      * apply IH. rewrite list_lookup_insert_ne by auto. exact Hj.
Qed.

(** After a line is counted, the width of each of its tokens' columns is
    at least the token's length. *)
Lemma count_tokens_covers line (index : nat) widths (k : nat) token :
  (index < length widths)%nat ->
  line !! k = Some token ->
  exists w,
    count_tokens line index widths !! S (index + k) = Some w
    /\ Py.len (Token.value token) <= w.
Proof.
  revert index widths k.
  induction line as [|first line IH]; intros index widths k Hindex Hk;
    [discriminate|].
  cbn [count_tokens]. cbv zeta.
  set (widths' := if bool_decide (length widths <= S index)%nat then _ else _).
  assert (S index < length widths')%nat as Hindex'.
  { unfold widths'. case_bool_decide.
    - rewrite length_app. simpl. lia.
    - destruct (widths !! S index); [case_bool_decide|];
        rewrite ?length_insert; lia. }
  destruct k as [|k].
  - injection Hk as ->.
    assert (exists w, widths' !! S index = Some w
                      /\ Py.len (Token.value token) <= w) as (w & Hw & Hle).
    { unfold widths'. case_bool_decide as Hcol.
      - exists (Py.len (Token.value token)). split; [|lia].
        replace (S index) with (length widths + 0)%nat by lia.
        rewrite lookup_app_r by lia.
        replace (length widths + 0 - length widths)%nat with 0%nat by lia.
        reflexivity.
      - destruct (widths !! S index) as [w0|] eqn:Hw0.
        + case_bool_decide.
          * exists (Py.len (Token.value token)). split; [|lia].
            apply list_lookup_insert_eq. lia.
          * exists w0. split; [exact Hw0 | lia].
        + apply lookup_ge_None in Hw0. lia. }
    destruct (count_tokens_grows line (S index) widths' (S index) w Hw)
      as (w' & Hw' & Hle').
    exists w'. rewrite Nat.add_0_r. split; [exact Hw' | lia].
  - simpl in Hk.
    destruct (IH (S index) widths' k Hindex' Hk) as (w & Hw & Hle).
    exists w. split; [|exact Hle].
    replace (S (index + S k)) with (S (S index + k)) by lia. exact Hw.
Qed.

Lemma count_all_app widths lines1 lines2 :
  count_all widths (lines1 ++ lines2)
  = count_all (count_all widths lines1) lines2.
Proof. unfold count_all. apply foldl_app. Qed.

Lemma count_all_grows lines widths (j : nat) w :
  widths !! j = Some w ->
  exists w', count_all widths lines !! j = Some w' /\ w <= w'.
Proof.
  revert widths w. induction lines as [|line lines IH]; intros widths w Hj.
  - exists w. split; [exact Hj | lia].
  - destruct (count_tokens_grows line 0 widths j w Hj) as (w1 & Hw1 & Hle1).
    destruct (IH _ _ Hw1) as (w2 & Hw2 & Hle2).
    exists w2. split; [exact Hw2 | lia].
Qed.

Lemma count_all_covers lines widths line (k : nat) token :
  (1 <= length widths)%nat ->
  line ∈ lines ->
  line !! k = Some token ->
  exists w,
    count_all widths lines !! S k = Some w /\ Py.len (Token.value token) <= w.
Proof.
  intros Hlen Hin Hk.
  apply list_elem_of_split in Hin as (lines1 & lines2 & ->).
  rewrite count_all_app.
  assert (1 <= length (count_all widths lines1))%nat as Hlen1
    by (rewrite count_all_length by exact Hlen; lia).
  change (count_all (count_all widths lines1) (line :: lines2))
    with (count_all (count_tokens line 0 (count_all widths lines1)) lines2).
  destruct (count_tokens_covers line 0 (count_all widths lines1) k token
              ltac:(lia) Hk) as (w1 & Hw1 & Hle1).
  destruct (count_all_grows lines2 _ _ _ Hw1) as (w2 & Hw2 & Hle2).
  exists w2. split; [exact Hw2 | lia].
Qed.

End counter_cover.

Section counter_fit.

Lemma header_widths_length section :
  length (Aligner.header_widths section)
  = length (Statement.tokens (Sect.header section)).
Proof. unfold Aligner.header_widths. apply length_map. Qed.

(** The column width calculator never lowers a header width, and leaves for
    every token of every data line a width at least as large as the token:
    the token at position [k] of a line is covered by the entry [k + 1]. *)
Theorem counted_widths_cover section widths :
  1 <= header_columns section ->
  Aligner.counted_widths section = Ok widths ->
  (forall (j : nat) h,
     Aligner.header_widths section !! j = Some h ->
     exists w, widths !! j = Some w /\ h <= w)
  /\ (forall line (k : nat) token,
        line ∈ data_lines section ->
        line !! k = Some token ->
        exists w, widths !! S k = Some w /\ Py.len (Token.value token) <= w).
Proof.
  unfold header_columns. intros Hheader Hcounted.
  pose proof (counted_widths_spec _ _ Hcounted) as ->.
  pose proof (header_widths_length section) as Hlen.
  split.
  - intros j h Hj. apply count_all_grows, Hj.
  - intros line k token Hin Hk.
    apply (count_all_covers _ _ line); [lia | exact Hin | exact Hk].
Qed.

Lemma counted_widths_cover_witness :
  let section := example_table Token.TESTCASE_HEADER "Tests" in
  Aligner.counted_widths section = Ok [5; 6; 8]
  /\ forall line (k : nat) token,
       line ∈ data_lines section ->
       line !! k = Some token ->
       exists w, [5; 6; 8] !! S k = Some w /\ Py.len (Token.value token) <= w.
Proof.
  intros section.
  assert (Aligner.counted_widths section = Ok [5; 6; 8]) as H by reflexivity.
  split; [exact H|].
  exact (proj2 (counted_widths_cover section [5; 6; 8] ltac:(vm_compute; discriminate) H)).
Defined.




End counter_fit.

(** ** Tokens that fit start at their column *)

Section column_start.
Import ColumnAligner.

Lemma fits_app_widths previous line line' widths widths' :
  length line = length widths ->
  fits previous (line ++ line') (widths ++ widths') ->
  fits previous line widths.
Proof.
  revert previous widths.
  induction line as [|token line IH]; intros previous [|width widths] Hlen H;
    try discriminate; simpl in *; [exact I|].
  destruct H as [Hle H]. injection Hlen as Hlen. split; [exact Hle|].
  eapply IH; eassumption.
Qed.

(** With the flag set and [line_pos] ahead of [exp_pos] by the length of
    the token before, the loop keeps that shape over tokens that fit. *)
Lemma align_tokens_fits pre rest wpre wrest line_pos exp_pos previous s :
  _first_statment_seen s = true ->
  length pre = length wpre ->
  fits previous (pre ++ rest) (wpre ++ wrest) ->
  line_pos = exp_pos + previous ->
  let '(_, line_pos1, exp_pos1, _) :=
    align_tokens pre wpre line_pos exp_pos s in
  exists previous1,
    line_pos1 = exp_pos1 + previous1 /\ fits previous1 rest wrest.
Proof.
  intros Hseen. revert wpre line_pos exp_pos previous.
  induction pre as [|token pre IH];
    intros [|width wpre] line_pos exp_pos previous Hlen Hfits Hpos;
    try discriminate.
  - simpl. eauto.
  - injection Hlen as Hlen. simpl in Hfits. destruct Hfits as [Hle Hfits].
    rewrite align_tokens_cons, (corrects_seen _ _ Hseen). cbv beta iota zeta.
    rewrite Z.sub_0_r.
    match goal with |- context [align_tokens pre wpre ?lp ?ep s] =>
      specialize (IH wpre lp ep (Py.len (Token.value token)) Hlen Hfits);
      destruct (align_tokens pre wpre lp ep s) as [[[pre' lp1] ep1] s1] end.
    apply IH. simpl. rewrite len_app, len_spaces. lia.
Qed.

(** From a state whose flag is set, a token of a line that fits its widths
    up to that token is padded so that its text starts exactly at the sum
    of the widths up to its own: the text before it and its padding add up
    to that sum. *)
Theorem fitting_token_starts_at_its_column
    s pre token post wpre width wpost :
  _first_statment_seen s = true ->
  length pre = length wpre ->
  fits 0 (pre ++ [token]) (wpre ++ [width]) ->
  exists pre' pad post' line_pos exp_pos s',
    align_tokens (pre ++ token :: post) (wpre ++ width :: wpost) 0 0 s
    = (pre' ++ Token.mk (Token.type token) (pad ++ Token.value token) :: post',
       line_pos, exp_pos, s')
    /\ length pre' = length pre
    /\ text_length pre' + Py.len pad = total (wpre ++ [width]).
Proof.
  intros Hseen Hlen Hfits.
  pose proof (align_tokens_app pre (token :: post) wpre (width :: wpost)
                0 0 s Hlen) as Happ.
  pose proof (align_tokens_positions pre wpre 0 0 s Hlen) as Hpos.
  pose proof (align_tokens_seen pre wpre 0 0 s Hseen) as Hstate.
  pose proof (align_tokens_length pre wpre 0 0 s) as Hlength.
  pose proof (align_tokens_fits pre [token] wpre [width] 0 0 0 s Hseen Hlen
                Hfits eq_refl) as Hshape.
  destruct (align_tokens pre wpre 0 0 s) as [[[pre' lp1] ep1] s1].
  destruct Hstate as [-> Hep]. destruct Hpos as [Hlp _].
  destruct Hshape as (previous1 & Hlp1 & Hle & _).
  rewrite firstn_all2 in Hep by lia.
  rewrite Happ, align_tokens_cons, (corrects_seen _ _ Hseen).
  cbv beta iota zeta. rewrite Z.sub_0_r.
  match goal with |- context [align_tokens post wpost ?lp ?ep s] =>
    destruct (align_tokens post wpost lp ep s) as [[[post' lp2] ep2] s2] end.
  exists pre', (Py.spaces (ep1 + width - lp1)), post', lp2, ep2, s2.
  split; [reflexivity|]. split; [exact Hlength|].
  rewrite len_spaces, total_app. simpl. lia.
Qed.

Lemma fitting_token_starts_at_its_column_witness :
  let call := Token.mk Token.KEYWORD (lit "Log") in
  let arg := Token.mk (Token.OTHER "ARGUMENT") (lit "hello") in
  exists pre' pad post' line_pos exp_pos s',
    align_tokens ([call] ++ [arg]) ([5] ++ [6]) 0 0
      (ColumnAligner.mk [5; 6] 5 0 true)
    = (pre' ++ Token.mk (Token.OTHER "ARGUMENT") (pad ++ lit "hello") :: post',
       line_pos, exp_pos, s')
    /\ length pre' = 1%nat
    /\ text_length pre' + Py.len pad = 11.
Proof.
  intros call arg.
  apply (fitting_token_starts_at_its_column (ColumnAligner.mk [5; 6] 5 0 true)
           [call] arg [] [5] 6 []).
  - reflexivity.
  - reflexivity.
  - simpl. unfold Py.len. simpl. lia.
Defined.

End column_start.

(** ** What the column aligner raises, keeps and changes *)

Section column_aligner_frame.
Import ColumnAligner.

Lemma visit_line_raises_with_widths s line :
  (exists e, visit_line s line = Raise e)
  <-> exists e, line_widths s line = Raise e.
Proof.
  unfold visit_line.
  destruct (line_widths s line) as [widths|e]; cbn [bind].
  - destruct (align_tokens line widths 0 0 s) as [[[l lp] ep] s1].
    split; intros [e H]; discriminate.
  - split; intros _; exists e; reflexivity.
Qed.

(** A line makes the column aligner raise exactly inside a loop, when the
    line is empty or is a keyword call and the widths have fewer than two
    entries to merge; at depth 0 no line raises. *)
Theorem visit_line_raises s line :
  (exists e, visit_line s line = Raise e)
  <-> 0 < indent s
      /\ (line = []
          \/ exists token rest,
               line = token :: rest
               /\ Token.type token = Token.KEYWORD
               /\ (length (widths s) < 2)%nat).
Proof.
  rewrite visit_line_raises_with_widths. unfold line_widths. split.
  - intros [e H]. case_bool_decide as Hindent; [|discriminate].
    split; [exact Hindent|].
    destruct line as [|token rest]; [left; reflexivity|].
    right. exists token, rest. split; [reflexivity|].
    case_bool_decide as Hkw; [|discriminate].
    split; [exact Hkw|].
    destruct (widths s) as [|w0 [|w1 ws]]; simpl; try lia. discriminate.
  - intros [Hindent H]. rewrite (bool_decide_eq_true_2 _ Hindent).
    destruct H as [-> | (token & rest & -> & Hkw & Hlen)].
    + exists IndexError. reflexivity.
    + rewrite (bool_decide_eq_true_2 _ Hkw).
      destruct (widths s) as [|w0 [|w1 ws]]; simpl in Hlen; try lia;
        exists IndexError; reflexivity.
Qed.

Lemma padded_of_refl token : padded_of token token.
Proof. split; [reflexivity|]. exists 0%nat. reflexivity. Qed.

Lemma Forall2_padded_refl line : Forall2 padded_of line line.
Proof. induction line; constructor; auto using padded_of_refl. Qed.

Lemma padded_statement_refl statement : padded_statement statement statement.
Proof.
  split; [reflexivity|].
  induction (Statement.lines statement); constructor;
    auto using Forall2_padded_refl.
Qed.

Lemma align_tokens_pads line widths line_pos exp_pos s :
  let '(line', _, _, _) := align_tokens line widths line_pos exp_pos s in
  Forall2 padded_of line line'.
Proof.
  revert widths line_pos exp_pos s.
  induction line as [|token line IH]; intros [|width widths] line_pos exp_pos s;
    try (simpl; auto using Forall2_padded_refl; fail).
  rewrite align_tokens_cons. cbv zeta.
  match goal with |- context [align_tokens line widths ?lp ?ep ?s1] =>
    specialize (IH widths lp ep s1);
    destruct (align_tokens line widths lp ep s1) as [[[rest lp'] ep'] s'] end.
  constructor; [|exact IH].
  split; [reflexivity|]. eexists. reflexivity.
Qed.

Lemma for_each_Forall2 {S A} (R : A -> A -> Prop)
    (f : S -> A -> result (A * S)) (l : list A) :
  (forall s a a' s', f s a = Ok (a', s') -> R a a') ->
  forall s l' s', for_each f s l = Ok (l', s') -> Forall2 R l l'.
Proof.
  intros Hf. induction l as [|a l IH]; intros s l' s' H; simpl in H.
  - injection H as <- _. constructor.
  - apply bind_ok in H as ([a' s1] & Ha & H).
    apply bind_ok in H as ([l'' s2] & Hl & H). injection H as <- _.
    constructor; eauto.
Qed.

Lemma Forall2_concat_map {A B} (R : B -> B -> Prop) (g : A -> list B) l l' :
  Forall2 (fun a a' => Forall2 R (g a) (g a')) l l' ->
  Forall2 R (concat (map g l)) (concat (map g l')).
Proof.
  induction 1; simpl; [constructor | apply Forall2_app; assumption].
Qed.

Lemma visit_Statement_pads s statement statement' s' :
  visit_Statement s statement = Ok (statement', s') ->
  padded_statement statement statement'.
Proof.
  unfold visit_Statement. intros H.
  destruct (bool_decide _);
    [injection H as <- _; apply padded_statement_refl|].
  destruct (bool_decide _).
  - apply bind_ok in H as (token & _ & H). injection H as <- _.
    apply padded_statement_refl.
  - apply bind_ok in H as ([lines s1] & Hlines & H). injection H as <- _.
    split; [reflexivity|]. simpl.
    revert Hlines. apply for_each_Forall2.
    intros x line line' x' Hline. unfold visit_line in Hline.
    apply bind_ok in Hline as (widths & _ & Hline).
    pose proof (align_tokens_pads line widths 0 0 x) as Hpads.
    destruct (align_tokens line widths 0 0 x) as [[[l lp] ep] x1].
    injection Hline as <- _. exact Hpads.
Qed.

Lemma visit_ForLoop_pads s forloop forloop' s' :
  visit_ForLoop s forloop = Ok (forloop', s') ->
  Forall2 padded_statement
    (statements_of_loop forloop) (statements_of_loop forloop').
Proof.
  unfold visit_ForLoop, NodeVisitor.generic_visit_ForLoop. intros H.
  apply bind_ok in H as ([f s1] & H & H'). injection H' as <- _.
  apply bind_ok in H as ([h s2] & Hh & H).
  apply bind_ok in H as ([b s3] & Hb & H).
  apply bind_ok in H as ([e s4] & He & H). injection H as <- _.
  unfold statements_of_loop. simpl.
  constructor; [eapply visit_Statement_pads, Hh|].
  apply Forall2_app.
  - revert Hb. apply for_each_Forall2. intros; eapply visit_Statement_pads; eauto.
  - constructor; [eapply visit_Statement_pads, He | constructor].
Qed.

Lemma visit_BodyItem_pads s item item' s' :
  NodeVisitor.visit_BodyItem visit_Statement visit_ForLoop s item
  = Ok (item', s') ->
  Forall2 padded_statement
    (statements_of_body_item item) (statements_of_body_item item').
Proof.
  destruct item as [statement|forloop]; simpl; intros H.
  - apply bind_ok in H as ([st s1] & H & H'). injection H' as <- _.
    constructor; [eapply visit_Statement_pads, H | constructor].
  - apply bind_ok in H as ([f s1] & H & H'). injection H' as <- _.
    eapply visit_ForLoop_pads, H.
Qed.

Lemma visit_TestOrKeyword_pads s node node' s' :
  visit_TestOrKeyword s node = Ok (node', s') ->
  Forall2 padded_statement (statements_of_block node) (statements_of_block node').
Proof.
  unfold visit_TestOrKeyword, NodeVisitor.generic_visit_TestOrKeyword. intros H.
  apply bind_ok in H as ([n s1] & Hn & H).
  apply bind_ok in H as ([b s2] & Hb & H). injection H as <- _.
  unfold statements_of_block. simpl.
  constructor; [eapply visit_Statement_pads, Hn|].
  apply Forall2_concat_map. revert Hb. apply for_each_Forall2.
  intros; eapply visit_BodyItem_pads; eauto.
Qed.

Lemma visit_SectionItem_pads s item item' s' :
  NodeVisitor.visit_SectionItem visit_Statement visit_TestOrKeyword s item
  = Ok (item', s') ->
  Forall2 padded_statement
    (statements_of_section_item item) (statements_of_section_item item').
Proof.
  destruct item as [statement|node]; simpl; intros H.
  - apply bind_ok in H as ([st s1] & H & H'). injection H' as <- _.
    constructor; [eapply visit_Statement_pads, H | constructor].
  - apply bind_ok in H as ([n s1] & H & H'). injection H' as <- _.
    eapply visit_TestOrKeyword_pads, H.
Qed.

(** The column aligner only pads: the section it returns has the type of
    the section it was given and, statement by statement and line by line,
    the same tokens with the same types, each text with nothing but spaces
    put before it. *)
Theorem column_aligner_only_pads s section section' s' :
  visit_Section s section = Ok (section', s') ->
  Sect.type section' = Sect.type section
  /\ Forall2 padded_statement
       (statements_of_section section) (statements_of_section section').
Proof.
  unfold visit_Section, NodeVisitor.generic_visit_Section. intros H.
  apply bind_ok in H as ([h s1] & Hh & H).
  apply bind_ok in H as ([b s2] & Hb & H). injection H as <- _.
  split; [reflexivity|]. unfold statements_of_section. simpl.
  constructor; [eapply visit_Statement_pads, Hh|].
  apply Forall2_concat_map. revert Hb. apply for_each_Forall2.
  intros; eapply visit_SectionItem_pads; eauto.
Qed.

End column_aligner_frame.

(** ** The fields the column aligner restores *)

Section column_aligner_fields.
Import ColumnAligner.

Lemma visit_line_fields s line line' s' :
  visit_line s line = Ok (line', s') ->
  widths s' = widths s /\ indent s' = indent s.
Proof.
  unfold visit_line. intros H. apply bind_ok in H as (ws & _ & H).
  pose proof (align_tokens_state line ws 0 0 s) as Hstate.
  destruct (align_tokens line ws 0 0 s) as [[[l lp] ep] s1].
  injection H as _ <-. destruct Hstate as [-> | [_ ->]]; auto.
Qed.

Lemma visit_Statement_fields s statement statement' s' :
  visit_Statement s statement = Ok (statement', s') ->
  widths s' = widths s /\ indent s' = indent s.
Proof.
  unfold visit_Statement. intros H.
  destruct (bool_decide _); [injection H as _ <-; auto|].
  destruct (bool_decide _).
  - apply bind_ok in H as (token & _ & H). injection H as _ <-. auto.
  - apply bind_ok in H as ([lines s1] & Hlines & H). injection H as _ <-.
    revert Hlines.
    apply (for_each_invariant
             (fun x => widths x = widths s /\ indent x = indent s)); [|auto].
    intros x a a' x' [Hw Hi] Ha. apply visit_line_fields in Ha as [-> ->]. auto.
Qed.

Lemma visit_ForLoop_fields s forloop forloop' s' :
  visit_ForLoop s forloop = Ok (forloop', s') ->
  widths s' = widths s /\ indent s' = indent s.
Proof.
  unfold visit_ForLoop, NodeVisitor.generic_visit_ForLoop. intros H.
  apply bind_ok in H as ([f s1] & H & H'). injection H' as _ <-.
  apply bind_ok in H as ([h s2] & Hh & H).
  apply bind_ok in H as ([b s3] & Hb & H).
  apply bind_ok in H as ([e s4] & He & H). injection H as _ <-.
  apply visit_Statement_fields in Hh as [Hw2 Hi2].
  apply visit_Statement_fields in He as [Hw4 Hi4].
  assert (widths s3 = widths s2 /\ indent s3 = indent s2) as [Hw3 Hi3].
  { revert Hb.
    apply (for_each_invariant
             (fun x => widths x = widths s2 /\ indent x = indent s2)); [|auto].
    intros x a a' x' [Hw Hi] Ha.
    apply visit_Statement_fields in Ha as [-> ->]. auto. }
  simpl in *. split; [congruence | lia].
Qed.

Lemma visit_BodyItem_fields s item item' s' :
  NodeVisitor.visit_BodyItem visit_Statement visit_ForLoop s item
  = Ok (item', s') ->
  widths s' = widths s /\ indent s' = indent s.
Proof.
  destruct item as [statement|forloop]; simpl; intros H.
  - apply bind_ok in H as ([st s1] & H & H'). injection H' as _ <-.
    eapply visit_Statement_fields, H.
  - apply bind_ok in H as ([f s1] & H & H'). injection H' as _ <-.
    eapply visit_ForLoop_fields, H.
Qed.

Lemma visit_TestOrKeyword_fields s node node' s' :
  visit_TestOrKeyword s node = Ok (node', s') ->
  widths s' = widths s /\ indent s' = indent s.
Proof.
  unfold visit_TestOrKeyword, NodeVisitor.generic_visit_TestOrKeyword. intros H.
  apply bind_ok in H as ([n s1] & Hn & H).
  apply bind_ok in H as ([b s2] & Hb & H). injection H as _ <-.
  apply visit_Statement_fields in Hn as [Hw1 Hi1]. simpl in Hw1, Hi1.
  rewrite <- Hw1, <- Hi1. revert Hb.
  apply (for_each_invariant
           (fun x => widths x = widths s1 /\ indent x = indent s1)); [|auto].
  intros x a a' x' [Hw Hi] Ha. apply visit_BodyItem_fields in Ha as [-> ->]. auto.
Qed.

(** The column aligner never touches its widths, and leaves the section
    at the depth it entered it: every loop gives back the indentation it
    took, also on the way out of nested statements. *)
Theorem column_aligner_restores_indent s section section' s' :
  visit_Section s section = Ok (section', s') ->
  widths s' = widths s /\ indent s' = indent s.
Proof.
  unfold visit_Section, NodeVisitor.generic_visit_Section. intros H.
  apply bind_ok in H as ([h s1] & Hh & H).
  apply bind_ok in H as ([b s2] & Hb & H). injection H as _ <-.
  apply visit_Statement_fields in Hh as [Hw1 Hi1].
  rewrite <- Hw1, <- Hi1. revert Hb.
  apply (for_each_invariant
           (fun x => widths x = widths s1 /\ indent x = indent s1)); [|auto].
  intros x a a' x' [Hw Hi] Ha. destruct a as [statement|node]; simpl in Ha.
  - apply bind_ok in Ha as ([st x1] & Ha & H'). injection H' as _ <-.
    apply visit_Statement_fields in Ha as [-> ->]. auto.
  - apply bind_ok in Ha as ([n x1] & Ha & H'). injection H' as _ <-.
    apply visit_TestOrKeyword_fields in Ha as [-> ->]. auto.
Qed.

End column_aligner_fields.

Lemma column_aligner_only_pads_witness :
  let section := example_table Token.TESTCASE_HEADER "Tests" in
  exists section' s',
    ColumnAligner.visit_Section (ColumnAligner.__init__ [5; 6]) section
    = Ok (section', s')
    /\ Sect.type section' = Token.TESTCASE_HEADER
    /\ Forall2 padded_statement
         (statements_of_section section) (statements_of_section section').
Proof.
  intros section. eexists. eexists. split; [vm_compute; reflexivity|].
  exact (column_aligner_only_pads (ColumnAligner.__init__ [5; 6]) section
           _ _ eq_refl).
Defined.

Lemma column_aligner_restores_indent_witness :
  let section := example_table Token.TESTCASE_HEADER "Tests" in
  exists section' s',
    ColumnAligner.visit_Section (ColumnAligner.__init__ [5; 6]) section
    = Ok (section', s')
    /\ ColumnAligner.widths s' = [5; 6]
    /\ ColumnAligner.indent s' = 0.
Proof.
  intros section. eexists. eexists. split; [vm_compute; reflexivity|].
  exact (column_aligner_restores_indent (ColumnAligner.__init__ [5; 6]) section
           _ _ eq_refl).
Defined.

(** ** The name column of settings and variables *)

Section justify.
Import Aligner.

Lemma justify_lines_raises lines :
  (exists e, for_each justify_line tt lines = Raise e) <-> [] ∈ lines.
Proof.
  induction lines as [|line lines IH]; simpl.
  - split; [intros [e H]; discriminate | intros H; inversion H].
  - destruct line as [|token line]; simpl.
    + split; [intros _; apply list_elem_of_here | intros _; eauto].
    + destruct (for_each justify_line tt lines) as [[lines' []]|e]; simpl.
      * split; [intros [e H]; discriminate|].
        intros H. apply elem_of_cons in H as [H|H]; [discriminate|].
        apply IH in H as [e H]. discriminate.
      * split; [intros _|intros _; eauto].
        apply list_elem_of_further, IH. eauto.
Qed.

(** Justifying a statement of a settings or variables section raises
    exactly when one of its lines has no token. *)
Theorem justify_raises_on_empty_line statement :
  (exists e, visit_Statement tt statement = Raise e)
  <-> [] ∈ Statement.lines statement.
Proof.
  rewrite <- justify_lines_raises. unfold visit_Statement.
  destruct (for_each justify_line tt (Statement.lines statement))
    as [[lines' []]|e]; simpl.
  - split; intros [e H]; discriminate.
  - split; intros _; eauto.
Qed.

(** On a statement whose lines all have a token, the first token of each
    line gets spaces after its text up to 14 characters, a longer text
    staying as it is, and nothing else changes. *)
Theorem first_token_left_justified statement :
  Forall (fun line => line <> []) (Statement.lines statement) ->
  exists statement',
    visit_Statement tt statement = Ok (statement', tt)
    /\ Statement.type statement' = Statement.type statement
    /\ Forall2
         (fun line line' =>
            exists token rest,
              line = token :: rest
              /\ line'
                 = Token.mk (Token.type token)
                     (Token.value token
                      ++ replicate
                           (Z.to_nat (14 - Py.len (Token.value token))) " "%char)
                   :: rest
              /\ (forall token', line' !! 0%nat = Some token' ->
                  Py.len (Token.value token')
                  = Z.max (Py.len (Token.value token)) 14))
         (Statement.lines statement) (Statement.lines statement').
Proof.
  intros Hlines. unfold visit_Statement.
  assert (exists lines',
            for_each justify_line tt (Statement.lines statement)
            = Ok (lines', tt)
            /\ Forall2
                 (fun line line' =>
                    exists token rest,
                      line = token :: rest
                      /\ line'
                         = Token.mk (Token.type token)
                             (Token.value token
                              ++ replicate
                                   (Z.to_nat (14 - Py.len (Token.value token)))
                                   " "%char)
                           :: rest
                      /\ (forall token', line' !! 0%nat = Some token' ->
                          Py.len (Token.value token')
                          = Z.max (Py.len (Token.value token)) 14))
                 (Statement.lines statement) lines') as (lines' & -> & H).
  { induction Hlines as [|line lines Hline Hlines IH]; simpl.
    - exists []. split; [reflexivity | constructor].
    - destruct line as [|token rest]; [contradiction|]. simpl.
      destruct IH as (lines' & -> & IH). simpl.
      eexists. split; [reflexivity|]. constructor; [|exact IH].
      exists token, rest. split; [reflexivity|]. split; [reflexivity|].
      intros token' Htoken'. injection Htoken' as <-.
      unfold Token.set_value, Py.ljust, Py.spaces, _setting_and_variable_name_width.
      cbn [Token.value]. rewrite len_app. unfold Py.len at 2.
      rewrite length_replicate.
      pose proof (len_nonneg (Token.value token)). lia. }
  simpl. eexists. split; [reflexivity|]. split; [reflexivity | exact H].
Qed.

Lemma first_token_left_justified_witness :
  let statement :=
    Statement.mk (Token.OTHER "LIBRARY")
      [[Token.mk (Token.OTHER "LIBRARY") (lit "Library");
        Token.mk (Token.OTHER "ARGUMENT") (lit "OperatingSystem")]] in
  exists statement',
    visit_Statement tt statement = Ok (statement', tt)
    /\ Statement.type statement' = Token.OTHER "LIBRARY".
Proof.
  intros statement.
  destruct (first_token_left_justified statement
              ltac:(repeat constructor; discriminate))
    as (statement' & H & Htype & _).
  exists statement'. split; [exact H | exact Htype].
Defined.

End justify.

(** ** The loop markers *)

Section loop_markers.
Import ForLoopCleaner.

Lemma set_first_value_twice lines v w :
  Statement.set_first_value (Statement.set_first_value lines v) w
  = Statement.set_first_value lines w.
Proof.
  induction lines as [|[|token line] lines IH]; simpl;
    [reflexivity | rewrite IH; reflexivity | reflexivity].
Qed.

Lemma assign_first_value_raises statement v :
  (exists e, Statement.assign_first_value statement v = Raise e)
  <-> Statement.tokens statement = [].
Proof.
  unfold Statement.assign_first_value, Statement.first_token.
  destruct (Statement.tokens statement) as [|token rest]; simpl.
  - split; [reflexivity | eauto].
  - split; [intros [e H]|]; discriminate.
Qed.

Lemma assign_first_value_again statement statement' v :
  Statement.assign_first_value statement v = Ok statement' ->
  Statement.assign_first_value statement' v = Ok statement'.
Proof.
  intros H.
  destruct (Statement.tokens statement) as [|token rest] eqn:Htokens.
  - unfold Statement.assign_first_value, Statement.first_token in H.
    rewrite Htokens in H. discriminate.
  - destruct (assign_first_value_spec statement token rest v Htokens)
      as (st & Hst & _ & Htokens').
    assert (st = statement') as -> by congruence.
    unfold Statement.assign_first_value, Statement.first_token in *.
    rewrite Htokens'. rewrite Htokens in H. simpl in *.
    injection H as <-. simpl. rewrite set_first_value_twice. reflexivity.
Qed.

(** The loop marker normalizer raises exactly on a loop whose header or
    whose end has no token. *)
Theorem loop_markers_raise forloop :
  (exists e, visit_ForLoop tt forloop = Raise e)
  <-> Statement.tokens (ForLoop.header forloop) = []
      \/ Statement.tokens (ForLoop.end_ forloop) = [].
Proof.
  unfold visit_ForLoop.
  rewrite <- (assign_first_value_raises (ForLoop.header forloop) (lit "FOR")).
  rewrite <- (assign_first_value_raises (ForLoop.end_ forloop) (lit "END")).
  destruct (Statement.assign_first_value (ForLoop.header forloop) _)
    as [header|e1]; simpl.
  - destruct (Statement.assign_first_value (ForLoop.end_ forloop) _)
      as [end_|e2]; simpl.
    + split; [intros [e H]; discriminate | intros [[e H]|[e H]]; discriminate].
    + split; [intros _; right; eauto | intros _; eauto].
  - split; [intros _; left; eauto | intros _; eauto].
Qed.

(** On a loop whose header and end have a token, the first token of the
    header becomes [FOR] and the first token of the end [END], whatever
    they were; their types, the other tokens and the body stay, and
    normalizing the result again changes nothing. *)
Theorem loop_markers_set forloop h hs e es :
  Statement.tokens (ForLoop.header forloop) = h :: hs ->
  Statement.tokens (ForLoop.end_ forloop) = e :: es ->
  exists forloop',
    visit_ForLoop tt forloop = Ok (forloop', tt)
    /\ Statement.tokens (ForLoop.header forloop')
       = Token.mk (Token.type h) (lit "FOR") :: hs
    /\ Statement.tokens (ForLoop.end_ forloop')
       = Token.mk (Token.type e) (lit "END") :: es
    /\ ForLoop.body forloop' = ForLoop.body forloop
    /\ visit_ForLoop tt forloop' = Ok (forloop', tt).
Proof.
  intros Hh He. unfold visit_ForLoop.
  destruct (assign_first_value_spec _ h hs (lit "FOR") Hh)
    as (header & Hheader & _ & Hhtokens).
  destruct (assign_first_value_spec _ e es (lit "END") He)
    as (end_ & Hend & _ & Hetokens).
  rewrite Hheader, Hend. cbn [bind].
  eexists. split; [reflexivity|].
  cbn [ForLoop.header ForLoop.end_ ForLoop.body].
  split; [exact Hhtokens|]. split; [exact Hetokens|]. split; [reflexivity|].
  rewrite (assign_first_value_again _ _ _ Hheader).
  rewrite (assign_first_value_again _ _ _ Hend). reflexivity.
Qed.

Lemma loop_markers_set_witness :
  let token type s := Token.mk type (lit s) in
  let forloop :=
    ForLoop.mk
      (Statement.mk (Token.OTHER "FOR")
         [[token (Token.OTHER "FOR") ": for"; token (Token.OTHER "VARIABLE") "${x}"]])
      []
      (Statement.mk (Token.OTHER "END") [[token (Token.OTHER "END") "end"]]) in
  exists forloop',
    visit_ForLoop tt forloop = Ok (forloop', tt)
    /\ Statement.tokens (ForLoop.header forloop')
       = [token (Token.OTHER "FOR") "FOR"; token (Token.OTHER "VARIABLE") "${x}"]
    /\ Statement.tokens (ForLoop.end_ forloop') = [token (Token.OTHER "END") "END"].
Proof.
  intros token forloop.
  destruct (loop_markers_set forloop (token (Token.OTHER "FOR") ": for")
              [token (Token.OTHER "VARIABLE") "${x}"]
              (token (Token.OTHER "END") "end") [] eq_refl eq_refl)
    as (forloop' & H & Hh & He & _).
  exists forloop'. split; [exact H|]. split; [exact Hh | exact He].
Defined.

End loop_markers.

(** ** Stripping the separators twice *)

Section strip_twice.
Import SeparatorRemover.

Lemma regroup_concat {A} (lines : list (list A)) :
  Statement.regroup (map length lines) (concat lines) = lines.
Proof.
  induction lines as [|line lines IH]; simpl; [reflexivity|].
  rewrite take_app_length, drop_app_length, IH. reflexivity.
Qed.

Lemma filter_all {A} (f : A -> bool) (l : list A) :
  Forall (fun x => f x = true) l -> List.filter f l = l.
Proof.
  induction 1 as [|x l Hx Hl IH]; simpl; [reflexivity|].
  rewrite Hx, IH. reflexivity.
Qed.

Lemma filter_kept {A} (f : A -> bool) (l : list A) :
  Forall (fun x => f x = true) (List.filter f l).
Proof.
  apply Forall_forall. intros x Hx.
  apply list_elem_of_In, List.filter_In in Hx as [_ Hx]. exact Hx.
Qed.

Lemma kept_not_separator token : kept token = true -> is_separator token = false.
Proof.
  unfold kept, is_separator. intros H. apply negb_true_iff in H.
  apply orb_false_elim in H as [H _]. apply orb_false_elim in H as [_ H].
  exact H.
Qed.

(** A header row without separators is left as it is. *)
Lemma run_header_values_plain tokens :
  Forall (fun token => kept token = true) tokens ->
  run_header_values tokens = tokens.
Proof.
  induction 1 as [|token tokens Hkept Htokens IH]; simpl; [reflexivity|].
  rewrite IH. f_equal.
  destruct (is_header_title token); [|reflexivity].
  destruct Htokens as [|next tokens Hnext _]; simpl;
    [apply append_value_nil|].
  rewrite (kept_not_separator _ Hnext). apply append_value_nil.
Qed.

Lemma assign_tokens_again statement mutate :
  (forall tokens,
     Forall (fun token => kept token = true) tokens -> mutate tokens = tokens) ->
  Statement.assign_tokens (Statement.assign_tokens statement mutate kept)
    mutate kept
  = Statement.assign_tokens statement mutate kept.
Proof.
  intros Hmutate. unfold Statement.assign_tokens at 1 3.
  cbn [Statement.type Statement.lines]. f_equal.
  unfold Statement.tokens.
  set (lines' := Statement.lines (Statement.assign_tokens statement mutate kept)).
  assert (Forall (Forall (fun token => kept token = true)) lines') as Hkept.
  { unfold lines', Statement.assign_tokens. cbn [Statement.lines].
    apply Forall_forall. intros line Hline.
    apply list_elem_of_fmap in Hline as (l & -> & _). apply filter_kept. }
  rewrite Hmutate by (apply Forall_concat; exact Hkept).
  rewrite regroup_concat.
  assert (map (List.filter kept) lines' = lines') as ->.
  { clear -Hkept. induction Hkept as [|line lines Hline Hlines IH]; simpl;
      [reflexivity|].
    rewrite (filter_all _ _ Hline), IH. reflexivity. }
  reflexivity.
Qed.

(** The separator stripper changes nothing in a statement it has already
    stripped: no structural token is left to remove, and no separator is
    left to lengthen a header title a second time. *)
Theorem separators_stripped_once statement :
  exists statement',
    visit_Statement tt statement = Ok (statement', tt)
    /\ visit_Statement tt statement' = Ok (statement', tt).
Proof.
  unfold visit_Statement. eexists. split; [reflexivity|].
  cbn [Statement.assign_tokens Statement.type].
  rewrite assign_tokens_again; [reflexivity|].
  intros tokens Hkept. destruct (bool_decide _); [|reflexivity].
  rewrite _add_whitespace_to_header_values_spec.
  apply run_header_values_plain, Hkept.
Qed.

End strip_twice.

(** ** The text of a section does not depend on the sink *)

Section sink.
Import Writer.
Variable config : configuration.

Lemma for_each__ahead {A} (f : state -> A -> result state) before l :
  (forall s1 s2 a, ahead before s1 s2 -> ahead_result before (f s1 a) (f s2 a)) ->
  forall s1 s2,
    ahead before s1 s2 ->
    ahead_result before (for_each_ f s1 l) (for_each_ f s2 l).
Proof.
  intros Hf. induction l as [|a l IH]; intros s1 s2 H; simpl; [exact H|].
  specialize (Hf s1 s2 a H).
  destruct (f s1 a) as [s1'|e1], (f s2 a) as [s2'|e2]; simpl in *;
    try contradiction; [apply IH, Hf | exact Hf].
Qed.

Lemma _write_statement_ahead before s1 s2 statement write_newline :
  ahead before s1 s2 ->
  ahead before (_write_statement config s1 statement write_newline)
    (_write_statement config s2 statement write_newline).
Proof.
  intros (Hout & Hindent & Hkw & Hheaders). rewrite !_write_statement_spec.
  unfold ahead. simpl. rewrite Hout, Hindent, app_assoc. auto.
Qed.

Lemma set_indent_ahead before s1 s2 n :
  ahead before s1 s2 ->
  ahead before (set_indent s1 (indent s1 + n)) (set_indent s2 (indent s2 + n)).
Proof.
  intros (Hout & Hindent & Hkw & Hheaders). unfold ahead. simpl.
  rewrite Hindent. auto.
Qed.

Lemma visit_Statement_ahead before s1 s2 statement :
  ahead before s1 s2 ->
  ahead_result before (visit_Statement config s1 statement)
    (visit_Statement config s2 statement).
Proof. intros H. simpl. apply _write_statement_ahead, H. Qed.

Lemma visit_ForLoop_ahead before s1 s2 node :
  ahead before s1 s2 ->
  ahead_result before (visit_ForLoop config s1 node)
    (visit_ForLoop config s2 node).
Proof.
  intros H. unfold visit_ForLoop.
  pose proof (for_each__ahead (visit_Statement config) before
                (ForLoop.body node) (fun a b c => visit_Statement_ahead before a b c)
                _ _ (set_indent_ahead before _ _ 1
                       (_write_statement_ahead before s1 s2
                          (ForLoop.header node) true H))) as Hbody.
  destruct (for_each_ _ _ (ForLoop.body node)) as [s1'|e1],
           (for_each_ _ _ (ForLoop.body node)) as [s2'|e2]; simpl in *;
    try contradiction; [|exact Hbody].
  apply _write_statement_ahead.
  replace (indent s1' - 1) with (indent s1' + -1) by lia.
  replace (indent s2' - 1) with (indent s2' + -1) by lia.
  apply set_indent_ahead, Hbody.
Qed.

Lemma visit_BodyItem_ahead before s1 s2 item :
  ahead before s1 s2 ->
  ahead_result before (visit_BodyItem config s1 item)
    (visit_BodyItem config s2 item).
Proof.
  destruct item; [apply visit_Statement_ahead | apply visit_ForLoop_ahead].
Qed.

Lemma visit_TestOrKeyword_ahead before s1 s2 node :
  ahead before s1 s2 ->
  ahead_result before (visit_TestOrKeyword config s1 node)
    (visit_TestOrKeyword config s2 node).
Proof.
  intros H. unfold visit_TestOrKeyword.
  assert (ahead before (if _test_or_kw_seen s1 then write s1 newline else s1)
            (if _test_or_kw_seen s2 then write s2 newline else s2)) as Hblank.
  { destruct H as (Hout & Hindent & Hkw & Hheaders). rewrite Hkw.
    destruct (_test_or_kw_seen s1) eqn:Hseen; unfold ahead; simpl;
      rewrite ?Hout, ?app_assoc; repeat split; congruence. }
  revert Hblank.
  generalize (if _test_or_kw_seen s1 then write s1 newline else s1).
  generalize (if _test_or_kw_seen s2 then write s2 newline else s2).
  intros t2 t1 Ht.
  assert (name_newline t2 node = name_newline t1 node) as ->.
  { unfold name_newline. destruct Ht as (_ & _ & _ & ->). reflexivity. }
  destruct (name_newline t1 node) as [write_newline|e]; simpl; [|reflexivity].
  pose proof (for_each__ahead (visit_BodyItem config) before
                (TestOrKeyword.body node)
                (fun a b c => visit_BodyItem_ahead before a b c)
                _ _ (set_indent_ahead before _ _ 1
                       (_write_statement_ahead before t1 t2
                          (TestOrKeyword.name node) write_newline Ht))) as Hbody.
  destruct (for_each_ _ _ (TestOrKeyword.body node)) as [s1'|e1],
           (for_each_ _ _ (TestOrKeyword.body node)) as [s2'|e2]; simpl in *;
    try contradiction; [|exact Hbody].
  destruct Hbody as (Hout & Hindent & Hkw & Hheaders).
  unfold ahead. simpl. rewrite Hindent. auto.
Qed.

Lemma visit_SectionItem_ahead before s1 s2 item :
  ahead before s1 s2 ->
  ahead_result before (visit_SectionItem config s1 item)
    (visit_SectionItem config s2 item).
Proof.
  destruct item; [apply visit_Statement_ahead | apply visit_TestOrKeyword_ahead].
Qed.

Lemma visit_Statement_indent s statement s' :
  visit_Statement config s statement = Ok s' -> indent s' = indent s.
Proof.
  unfold visit_Statement. rewrite _write_statement_spec.
  intros H. injection H as <-. reflexivity.
Qed.

Lemma visit_ForLoop_indent s node s' :
  visit_ForLoop config s node = Ok s' -> indent s' = indent s.
Proof.
  unfold visit_ForLoop. intros H.
  apply bind_ok in H as (s1 & Hbody & H). injection H as <-.
  rewrite _write_statement_spec. simpl.
  assert (indent s1 = indent s + 1) as ->; [|lia].
  revert Hbody.
  apply (for_each__invariant (fun x => indent x = indent s + 1)).
  - intros x a x' Hx Ha. apply visit_Statement_indent in Ha. congruence.
  - rewrite _write_statement_spec. reflexivity.
Qed.

Lemma visit_BodyItem_indent s item s' :
  visit_BodyItem config s item = Ok s' -> indent s' = indent s.
Proof.
  destruct item; [apply visit_Statement_indent | apply visit_ForLoop_indent].
Qed.

Lemma visit_TestOrKeyword_indent s node s' :
  visit_TestOrKeyword config s node = Ok s' -> indent s' = indent s.
Proof.
  unfold visit_TestOrKeyword. intros H.
  apply bind_ok in H as (nl & _ & H).
  apply bind_ok in H as (s1 & Hbody & H). injection H as <-. simpl.
  assert (indent s1 = indent s + 1) as ->; [|lia].
  revert Hbody.
  apply (for_each__invariant (fun x => indent x = indent s + 1)).
  - intros x a x' Hx Ha. apply visit_BodyItem_indent in Ha. congruence.
  - rewrite _write_statement_spec. simpl.
    destruct (_test_or_kw_seen s); reflexivity.
Qed.

Lemma visit_SectionItem_indent s item s' :
  visit_SectionItem config s item = Ok s' -> indent s' = indent s.
Proof.
  destruct item; [apply visit_Statement_indent | apply visit_TestOrKeyword_indent].
Qed.

Lemma enter_Section_ahead s section :
  single_column s ->
  _test_or_kw_seen s = false ->
  indent s = 0 ->
  ahead (output s ++ (if _section_seen s then newline else []))
    (enter_Section fresh section) (enter_Section s section).
Proof.
  unfold single_column. intros Hheaders Hkw Hindent.
  unfold enter_Section, fresh. cbn [_section_seen].
  destruct (bool_decide (Sect.type section = Token.TESTCASE_HEADER));
    [destruct (bool_decide
                 (1 < Z.of_nat (length (Statement.tokens (Sect.header section)))))|];
    destruct (_section_seen s); unfold ahead; simpl;
    rewrite ?app_nil_r; auto.
Qed.

Lemma visit_Section_after_sink s section :
  single_column s ->
  _test_or_kw_seen s = false ->
  indent s = 0 ->
  visit_Section config s section
  = (let* text := section_text config section in
     Ok (mk (output s ++ (if _section_seen s then newline else []) ++ text)
            0 true false HFalse)).
Proof.
  intros Hheaders Hkw Hindent.
  pose proof (enter_Section_ahead s section Hheaders Hkw Hindent) as Henter.
  assert (indent (enter_Section s section) = 0) as Hindent'.
  { destruct Henter as (_ & -> & _).
    unfold enter_Section, fresh. simpl.
    destruct (bool_decide _); [destruct (bool_decide _)|]; reflexivity. }
  unfold section_text, visit_Section, visit_Statement. cbn [bind].
  revert Henter Hindent'.
  generalize (enter_Section s section) (enter_Section fresh section).
  intros t2 t1 Ht Hindent'.
  pose proof (_write_statement_ahead _ _ _ (Sect.header section) true Ht)
    as Hheader.
  pose proof (for_each__ahead (visit_SectionItem config) _ (Sect.body section)
                (fun a b c => visit_SectionItem_ahead _ a b c) _ _ Hheader)
    as Hbody.
  assert (forall s3,
            for_each_ (visit_SectionItem config)
              (_write_statement config t2 (Sect.header section) true)
              (Sect.body section) = Ok s3 ->
            indent s3 = 0) as Hindent3.
  { intros s3 H3. revert H3.
    apply (for_each__invariant (fun x => indent x = 0)).
    - intros x a x' Hx Ha. apply visit_SectionItem_indent in Ha. congruence.
    - rewrite _write_statement_spec. exact Hindent'. }
  destruct (for_each_ _ (_write_statement config t1 _ _) _) as [s1'|e1],
           (for_each_ _ (_write_statement config t2 _ _) _) as [s2'|e2];
    simpl in *; try contradiction; [|congruence].
  destruct Hbody as (Hout & _). unfold leave_Section.
  rewrite Hout, (Hindent3 s2' eq_refl), <- app_assoc. reflexivity.
Qed.

(** A section entered at depth 0, outside a block and without a column
    layout, is written as it would be written on its own, after what the
    sink holds and after one newline when a section was written before;
    it fails exactly when it fails on its own, and it leaves the writer
    at depth 0 with its flags reset. *)
Theorem section_written_after_sink s section :
  single_column s ->
  _test_or_kw_seen s = false ->
  indent s = 0 ->
  visit_Section config s section
  = (let* text := section_text config section in
     Ok (mk (output s ++ (if _section_seen s then newline else []) ++ text)
            0 true false HFalse)).
Proof. apply visit_Section_after_sink. Qed.

End sink.

(** ** The text of a document *)

Section document.
Import Writer.
Variable config : configuration.

Lemma join_cons sep text texts :
  Py.join sep (text :: texts)
  = text ++ concat (map (fun t => sep ++ t) texts).
Proof.
  revert text. induction texts as [|t texts IH]; intros text.
  - simpl. rewrite app_nil_r. reflexivity.
  - change (Py.join sep (text :: t :: texts))
      with (text ++ sep ++ Py.join sep (t :: texts)).
    rewrite IH. simpl. rewrite <- app_assoc. reflexivity.
Qed.

Lemma visit_File_after_section model out s' :
  visit_File config (mk out 0 true false HFalse) model = Ok s' ->
  exists texts,
    Forall2 (fun section text => section_text config section = Ok text)
      model texts
    /\ output s' = out ++ concat (map (fun t => newline ++ t) texts).
Proof.
  revert out. induction model as [|section model IH]; intros out H.
  - injection H as <-. exists []. split; [constructor|].
    simpl. rewrite app_nil_r. reflexivity.
  - unfold visit_File in H. cbn [for_each_] in H.
    rewrite visit_Section_after_sink in H by reflexivity.
    destruct (section_text config section) as [text|e] eqn:Htext;
      [|discriminate].
    cbn [bind output _section_seen] in H.
    apply IH in H as (texts & Htexts & ->).
    exists (text :: texts). split; [constructor; assumption|].
    simpl. rewrite <- !app_assoc. reflexivity.
Qed.

(** The text of a document is what the sink held, then the texts of its
    sections, each as written on its own, with one newline between two
    sections and none before the first. *)
Theorem document_is_sections_joined model s' :
  visit_File config (__init__ config) model = Ok s' ->
  exists texts,
    Forall2 (fun section text => section_text config section = Ok text)
      model texts
    /\ output s' = output0 config ++ Py.join newline texts.
Proof.
  destruct model as [|section model]; intros H.
  - injection H as <-. exists []. split; [constructor|].
    simpl. rewrite app_nil_r. reflexivity.
  - unfold visit_File in H. cbn [for_each_] in H.
    rewrite visit_Section_after_sink in H by reflexivity.
    destruct (section_text config section) as [text|e] eqn:Htext;
      [|discriminate].
    cbn [bind __init__ output _section_seen] in H.
    apply visit_File_after_section in H as (texts & Htexts & ->).
    exists (text :: texts). split; [constructor; assumption|].
    rewrite join_cons. simpl. rewrite <- !app_assoc. reflexivity.
Qed.

End document.

Lemma section_written_after_sink_witness :
  let config := Writer.mk_configuration false 4 [] in
  let s := Writer.mk (lit "*** Settings ***" ++ Writer.newline) 0 true false
             Writer.HFalse in
  let section := example_table Token.TESTCASE_HEADER "Tests" in
  Writer.visit_Section config s section
  = (let* text := section_text config section in
     Ok (Writer.mk
           (lit "*** Settings ***" ++ Writer.newline ++ Writer.newline ++ text)
           0 true false Writer.HFalse)).
Proof.
  intros config s section.
  exact (section_written_after_sink config s section eq_refl eq_refl eq_refl).
Defined.

Lemma document_is_sections_joined_witness :
  let config := Writer.mk_configuration false 4 [] in
  let model :=
    [example_table Token.TESTCASE_HEADER "Tests";
     example_table Token.KEYWORD_HEADER "Keywords"] in
  exists s',
    Writer.visit_File config (Writer.__init__ config) model = Ok s'
    /\ exists texts,
         Forall2 (fun section text => section_text config section = Ok text)
           model texts
         /\ Writer.output s' = [] ++ Py.join Writer.newline texts.
Proof.
  intros config model.
  assert (exists s',
            Writer.visit_File config (Writer.__init__ config) model = Ok s')
    as [s' H] by (vm_compute; eexists; reflexivity).
  exists s'. split; [exact H|].
  exact (document_is_sections_joined config model s' H).
Defined.

(** ** The text of a loop *)

Section loop_text.
Import Writer.
Variable config : configuration.

Lemma visit_Statements_spec statements s :
  for_each_ (visit_Statement config) s statements
  = Ok (mk (output s
            ++ concat (map (rendered_line config (indent s) true)
                           (concat (map Statement.lines statements))))
           (indent s) (_section_seen s) (_test_or_kw_seen s)
           (_test_case_section_headers s)).
Proof.
  revert s. induction statements as [|statement statements IH]; intros s.
  - simpl. rewrite app_nil_r. destruct s; reflexivity.
  - cbn [for_each_]. unfold visit_Statement at 1. cbn [bind].
    rewrite IH, _write_statement_spec. simpl.
    rewrite map_app, concat_app, <- app_assoc. reflexivity.
Qed.

(** A loop is always written, and as three runs of lines: the lines of its
    header at the current depth, the lines of its body one indentation
    marker deeper, and the lines of its end at the current depth again,
    each line followed by a newline; the depth is then what it was. *)
Theorem loop_rendering s node :
  exists s',
    visit_ForLoop config s node = Ok s'
    /\ output s'
       = output s
         ++ concat (map (rendered_line config (indent s) true)
                        (Statement.lines (ForLoop.header node)))
         ++ concat (map (rendered_line config (indent s + 1) true)
                        (concat (map Statement.lines (ForLoop.body node))))
         ++ concat (map (rendered_line config (indent s) true)
                        (Statement.lines (ForLoop.end_ node)))
    /\ indent s' = indent s.
Proof.
  unfold visit_ForLoop. rewrite visit_Statements_spec. cbn [bind].
  eexists. split; [reflexivity|].
  rewrite !_write_statement_spec. simpl.
  rewrite <- !app_assoc. split; [|lia].
  replace (indent s + 1 - 1) with (indent s) by lia. reflexivity.
Qed.

End loop_text.

(** ** Right-trimmed rows *)

Section right_trim.

Lemma lstrip_spec s :
  exists spaces,
    s = spaces ++ Py.lstrip s
    /\ Forall (fun c => Py.isspace c = true) spaces
    /\ (forall c, head (Py.lstrip s) = Some c -> Py.isspace c = false).
Proof.
  induction s as [|c s (spaces & Hs & Hspaces & Hhead)]; simpl.
  - exists []. split; [reflexivity|]. split; [constructor | discriminate].
  - destruct (Py.isspace c) eqn:Hc.
    + exists (c :: spaces). split; [simpl; f_equal; exact Hs|].
      split; [constructor; assumption | exact Hhead].
    + exists []. split; [reflexivity|]. split; [constructor|].
      intros c' H. injection H as <-. exact Hc.
Qed.

(** [rstrip] takes off white space only, and all of it at the end. *)
Lemma rstrip_spec s :
  exists spaces,
    s = Py.rstrip s ++ spaces
    /\ Forall (fun c => Py.isspace c = true) spaces
    /\ (forall c, last (Py.rstrip s) = Some c -> Py.isspace c = false).
Proof.
  unfold Py.rstrip.
  destruct (lstrip_spec (reverse s)) as (spaces & Hs & Hspaces & Hhead).
  exists (reverse spaces). split; [|split].
  - rewrite <- reverse_app, <- Hs, reverse_involutive. reflexivity.
  - apply Forall_reverse, Hspaces.
  - intros c. rewrite last_reverse. apply Hhead.
Qed.

(** Without pipes a row never ends with white space: it is the indentation
    and the joined texts with only white space taken off their end. *)
Theorem space_rows_right_trimmed config indentation line :
  Writer.pipe_separated config = false ->
  exists spaces,
    indentation
    ++ Py.join (Py.spaces (Writer.txt_separating_spaces config))
         (map Token.value line)
    = Writer.row config indentation line ++ spaces
    /\ Forall (fun c => Py.isspace c = true) spaces
    /\ (forall c,
          last (Writer.row config indentation line) = Some c ->
          Py.isspace c = false).
Proof.
  intros Hspace. unfold Writer.row, Writer.separator, Writer.pipes.
  rewrite Hspace. simpl. apply rstrip_spec.
Qed.

Lemma space_rows_right_trimmed_witness :
  let config := Writer.mk_configuration false 4 [] in
  let line :=
    [Token.mk Token.KEYWORD (lit "Log"); Token.mk (Token.OTHER "ARGUMENT") (lit "")] in
  exists spaces,
    lit "Log    " = Writer.row config [] line ++ spaces
    /\ Forall (fun c => Py.isspace c = true) spaces
    /\ (forall c, last (Writer.row config [] line) = Some c ->
        Py.isspace c = false).
Proof.
  intros config line.
  exact (space_rows_right_trimmed config [] line eq_refl).
Defined.

End right_trim.

(** ** The row writers of the dialect classes *)

Section dialect_rows.

Lemma join_pipe_blank row :
  blank_row row
  = match Py.join (lit " | ") (map Token.value row) with
    | [] => true
    | _ :: _ => false
    end.
Proof.
  destruct row as [|token [|next row]].
  - reflexivity.
  - simpl. destruct (Token.value token); reflexivity.
  - change (Py.join (lit " | ") (map Token.value (token :: next :: row)))
      with (Token.value token ++ lit " | "
            ++ Py.join (lit " | ") (map Token.value (next :: row))).
    destruct (Token.value token); reflexivity.
Qed.

(** The row writer of the object [FileWriter] returns writes a row as the
    writer of the pipeline writes a line at depth 0, followed by a
    newline, with one exception: with pipes, a row without tokens or with
    a single empty token is written as a bare newline, where the writer
    of the pipeline writes the two pipes. *)
Theorem dialect_rows_match_the_writer config _output row :
  _write_row (FileWriter config) config _output row
  = _output
    ++ (if Writer.pipe_separated config && blank_row row then []
        else Writer.row config [] row)
    ++ Writer.newline.
Proof.
  unfold FileWriter, Writer.row, Writer.separator, Writer.pipes.
  destruct (Writer.pipe_separated config); cbn [_write_row andb negb].
  - unfold PipeSeparatedTxtWriter._write_row,
      PipeSeparatedTxtWriter._separator.
    rewrite join_pipe_blank. cbn [app].
    destruct (Py.join (lit " | ") (map Token.value row)); reflexivity.
  - reflexivity.
Qed.

End dialect_rows.

(** ** Normalizing a setting name twice *)

Section clean_twice.

















End clean_twice.
